(** * ClientRedis: request/response correlation over Redis pub/sub

    A shallow embedding of [packages/microservices/client/client-redis.ts].

    The class is a set of methods over mutable fields, and most of its work
    is done in callbacks handed to the Redis client.  The embedding makes
    both explicit:

    - the fields of the instance are a record [State], every method is a
      function from a state to a new state, the list of actions it performed
      on its collaborators (an [event] trace) and its result;
    - every arrow function the class creates is a constructor of [closure]
      that carries the variables the arrow function captures; the transport
      (or the caller) runs it later through the function that embeds its body.

    Code the class calls but does not define (the serializer, the JSON
    built-ins, the helpers inherited from [ClientProxy], the constants) is a
    field of the record [Collaborators]; the general theorems hold for every
    value of that record. *)

From stdpp Require Import gmap strings list pretty.
From Stdlib Require Import ZArith Ascii.

Open Scope string_scope.
Open Scope list_scope.
Open Scope Z_scope.

(** ** JavaScript values *)

(** An [Error] object: its [name], its [message], and the [code] property
    Node attaches to system errors. *)
Record js_error := JsError {
  e_name : string;
  e_message : string;
  e_code : option string;
}.

(** The values that travel through the client.  Numbers are restricted to
    the integers a double represents exactly: no statement below depends on
    a fractional value or on rounding. *)
#[warnings="-register-all"]
Inductive jsval :=
| JUndefined
| JNull
| JBool (b : bool)
| JNum (n : Z)
| JStr (s : string)
| JArr (items : list jsval)
| JObj (fields : list (string * jsval))
| JError (e : js_error).

(** [if (v)]: [undefined], [null], [false], [0] and the empty string are
    falsy, every other value (every object, array and Error) is truthy. *)
Definition truthy (v : jsval) : bool :=
  match v with
  | JUndefined | JNull => false
  | JBool b => b
  | JNum n => negb (n =? 0)
  | JStr s => negb (String.eqb s "")
  | JArr _ | JObj _ | JError _ => true
  end.

(** [o[k]] on the property list of an object literal. *)
Fixpoint obj_get (fields : list (string * jsval)) (k : string) : jsval :=
  match fields with
  | [] => JUndefined
  | (k', v) :: rest => if String.eqb k' k then v else obj_get rest k
  end.

(** The result of a call that may raise. *)
Inductive outcome (A : Type) :=
| Ok (a : A)
| Throw (e : jsval).
Arguments Ok {A} a.
Arguments Throw {A} e.

Definition is_throw {A} (o : outcome A) : bool :=
  match o with Ok _ => false | Throw _ => true end.

(** ** Packets *)

(** [ReadPacket]: [{ pattern, data }]. *)
Record ReadPacket := {
  pattern : string;
  data : jsval;
}.

(** [ReadPacket & PacketId], what [assignPacketId] returns. *)
Record PacketWithId := {
  id : string;
  packet : ReadPacket;
}.

Definition ReadPacket_value (p : ReadPacket) : jsval :=
  JObj [("pattern", JStr (pattern p)); ("data", data p)].

Definition PacketWithId_value (p : PacketWithId) : jsval :=
  JObj [("pattern", JStr (pattern (packet p))); ("data", data (packet p));
        ("id", JStr (id p))].

(** ** Collaborators *)

(** What the class uses and does not define.  [assignPacketId] draws a random
    identifier; the draw is its first argument, so that two sends of the same
    packet may get different identifiers. *)
Record Collaborators := {
  (** [./constants] *)
  ECONNREFUSED : string;
  (** [../constants] *)
  REDIS_DEFAULT_URL : string;
  CONNECT_EVENT : string;
  ERROR_EVENT : string;
  MESSAGE_EVENT : string;
  (** [this.serializer.serialize], [this.deserializer.deserialize] *)
  serialize : jsval -> outcome jsval;
  deserialize : jsval -> outcome jsval;
  (** [ClientProxy.assignPacketId], [ClientProxy.normalizePattern] *)
  assignPacketId : string -> ReadPacket -> outcome PacketWithId;
  normalizePattern : string -> outcome string;
  (** the built-ins [JSON.parse] and [JSON.stringify] *)
  JSON_parse : string -> outcome jsval;
  JSON_stringify : jsval -> outcome jsval;
  (** the [TypeError] the engine raises when property [p] is read from
      [null] or [undefined]; its text depends on the engine *)
  TypeError_read : string -> jsval;
}.

(** [RedisOptions['options']], the fields this class reads. *)
Record RedisOptions := {
  opt_url : option string;
  opt_retryAttempts : option Z;
  opt_retryDelay : option Z;
}.

(** Modelled from the spec: [getOptionsProp] of [ClientProxy], which is not
    part of the sources at hand; the spec calls it a dynamic option bag
    lookup.  An absent bag and an absent option both read as [undefined],
    here [None]. *)
Definition getOptionsProp {A} (obj : option RedisOptions)
    (prop : RedisOptions -> option A) : option A :=
  match obj with
  | Some o => prop o
  | None => None
  end.

(** Truthiness of an optional number: [undefined] and [0] are falsy. *)
Definition truthy_num (n : option Z) : bool :=
  match n with
  | Some z => negb (z =? 0)
  | None => false
  end.

(** [RetryStrategyOptions], the fields this class reads. *)
Record RetryStrategyOptions := {
  error : jsval;
  attempt : Z;
}.

(** ** Handles, closures, events *)

(** A [RedisClient] object, a caller's callback, an rxjs [Subject] and a
    promise are known by their identity only. *)
Abbreviation handle := nat (only parsing).
Abbreviation callback := nat (only parsing).
Abbreviation subject := nat (only parsing).
Abbreviation promise := nat (only parsing).

(** The arrow functions of the class, each with what it captures. *)
Inductive closure :=
| RetryStrategy (error_s : subject)                       (* lines 95-96 *)
| ErrorListener                                           (* line 91 *)
| ReadyListener (conn : promise)                          (* fromEvent, lines 68-69 *)
| ResponseCallback                                        (* lines 122-143 *)
| SubscribeAck (pattern : string) (serializedPacket : jsval) (* lines 157-165 *)
| Teardown (responseChannel : string) (id : string)       (* lines 167-170 *)
| PublishAck (p : promise).                               (* lines 181-183 *)

(** What the class does to its collaborators. *)
Inductive event :=
| EvCreateClient (h : handle) (url : string) (retry_strategy : closure)
| EvOn (h : handle) (ev : string) (listener : closure)
| EvQuit (h : handle)
| EvSubscribe (h : handle) (channel : string) (ack : closure)
| EvUnsubscribe (h : handle) (channel : string)
| EvPublish (h : handle) (channel : string) (message : jsval)
    (ack : option closure)
| EvCallback (cb : callback) (arg : jsval)
| EvSubjectError (s : subject) (e : jsval).

Inductive promise_state :=
| Pending
| Resolved (v : jsval)
| Rejected (e : jsval).

(** The pipeline [merge(error$, zip(pubConnect$, subClient$))
    .pipe(take(1), tap(..), share()).toPromise()] of one [connect] call:
    the two handles it listens to, whether each has emitted [CONNECT_EVENT]
    since (zip pairs the first emission of each side), and the state of the
    promise. *)
Record handshake := {
  hs_pub : handle;
  hs_sub : handle;
  hs_pub_ready : bool;
  hs_sub_ready : bool;
  hs_state : promise_state;
}.

(** ** The instance *)

Record State := {
  options : option RedisOptions;
  url : string;
  pubClient : option handle;
  subClient : option handle;
  connection : option promise;
  isExplicitlyTerminated : bool;
  (** [ClientProxy.routingMap], a [Map<string, Function>] *)
  routingMap : gmap string callback;
  (** the pipelines created so far; [connection] and the [error$] of a
      [connect] call are positions in this list *)
  handshakes : list handshake;
  (** the promises returned by [dispatchEvent] so far *)
  emitted : list promise_state;
  (** the number of [RedisClient] objects created so far *)
  clients : nat;
}.

Definition with_routingMap (st : State) (m : gmap string callback) : State :=
  {| options := options st; url := url st; pubClient := pubClient st;
     subClient := subClient st; connection := connection st;
     isExplicitlyTerminated := isExplicitlyTerminated st;
     routingMap := m; handshakes := handshakes st; emitted := emitted st;
     clients := clients st |}.

Definition with_handshakes (st : State) (l : list handshake) : State :=
  {| options := options st; url := url st; pubClient := pubClient st;
     subClient := subClient st; connection := connection st;
     isExplicitlyTerminated := isExplicitlyTerminated st;
     routingMap := routingMap st; handshakes := l; emitted := emitted st;
     clients := clients st |}.

Definition with_emitted (st : State) (l : list promise_state) : State :=
  {| options := options st; url := url st; pubClient := pubClient st;
     subClient := subClient st; connection := connection st;
     isExplicitlyTerminated := isExplicitlyTerminated st;
     routingMap := routingMap st; handshakes := handshakes st; emitted := l;
     clients := clients st |}.

Definition with_clients (st : State) (pub sub : option handle) : State :=
  {| options := options st; url := url st; pubClient := pub;
     subClient := sub; connection := connection st;
     isExplicitlyTerminated := isExplicitlyTerminated st;
     routingMap := routingMap st; handshakes := handshakes st;
     emitted := emitted st; clients := clients st |}.

Definition with_isExplicitlyTerminated (st : State) (b : bool) : State :=
  {| options := options st; url := url st; pubClient := pubClient st;
     subClient := subClient st; connection := connection st;
     isExplicitlyTerminated := b;
     routingMap := routingMap st; handshakes := handshakes st;
     emitted := emitted st; clients := clients st |}.

(** The constructor: no handle, no connection, an empty routing table. *)
Definition new_ClientRedis (c : Collaborators) (o : option RedisOptions)
    : State :=
  {| options := o;
     url := default (REDIS_DEFAULT_URL c)
              (match getOptionsProp o opt_url with
               | Some u => if String.eqb u "" then None else Some u
               | None => None
               end);
     pubClient := None; subClient := None; connection := None;
     isExplicitlyTerminated := false;
     routingMap := ∅; handshakes := []; emitted := []; clients := 0%nat |}.

(** ** The methods *)

Definition getAckPatternName (pattern : string) : string :=
  pattern +:+ "_ack".

Definition getResPatternName (pattern : string) : string :=
  pattern +:+ "_res".

(** [close()], lines 50-55. *)
Definition close (st : State) : State * list event :=
  (with_isExplicitlyTerminated (with_clients st None None) true,
   (match pubClient st with Some h => [EvQuit h] | None => [] end ++
    match subClient st with Some h => [EvQuit h] | None => [] end)%list).

(** [error$.error(e)] on the subject of pipeline [s]: while the promise is
    pending the error reaches it through [merge] and rejects it; once the
    pipeline has settled, [take(1)] has unsubscribed and the subject has no
    observer left. *)
Definition reject_pending (e : jsval) (hs : handshake) : handshake :=
  match hs_state hs with
  | Pending =>
      {| hs_pub := hs_pub hs; hs_sub := hs_sub hs;
         hs_pub_ready := hs_pub_ready hs; hs_sub_ready := hs_sub_ready hs;
         hs_state := Rejected e |}
  | _ => hs
  end.

Definition subject_error (st : State) (s : subject) (e : jsval) : State :=
  with_handshakes st (alter (reject_pending e) s (handshakes st)).

(** [(options.error as any).code] *)
Definition code_of (v : jsval) : jsval :=
  match v with
  | JError e => match e_code e with Some k => JStr k | None => JUndefined end
  | JObj fields => obj_get fields "code"
  | _ => JUndefined
  end.

(** [options.error && options.error.code === ECONNREFUSED] *)
Definition is_refused (c : Collaborators) (v : jsval) : bool :=
  truthy v &&
  match code_of v with
  | JStr k => String.eqb k (ECONNREFUSED c)
  | _ => false
  end.

(** [undefined | number | Error], the result of the retry strategy. *)
Inductive retry_result :=
| RetryUndefined
| RetryNumber (delay : Z)
| RetryError (message : string).

(** [createRetryStrategy(options, error$)], lines 102-119. *)
Definition createRetryStrategy (c : Collaborators) (st : State)
    (opts : RetryStrategyOptions) (error_s : subject)
    : State * list event * retry_result :=
  let '(st1, evs) :=
    if is_refused c (error opts)
    then (subject_error st error_s (error opts),
          [EvSubjectError error_s (error opts)])
    else (st, []) in
  if isExplicitlyTerminated st1 then (st1, evs, RetryUndefined)
  else if negb (truthy_num (getOptionsProp (options st1) opt_retryAttempts))
          || match getOptionsProp (options st1) opt_retryAttempts with
             | Some n => n <? attempt opts
             | None => false
             end
  then (st1, evs, RetryError "Retry time exhausted")
  else (st1, evs,
        RetryNumber
          (match getOptionsProp (options st1) opt_retryDelay with
           | Some d => if d =? 0 then 0 else d
           | None => 0
           end)).

(** [connect()], lines 57-81.  The events are, in order: the two
    [createClient] calls, the two [handleError] calls, and the two
    [CONNECT_EVENT] listeners that [fromEvent] installs when [toPromise]
    subscribes to the pipeline. *)
Definition connect (c : Collaborators) (st : State)
    : State * list event * option promise :=
  match pubClient st, subClient st with
  | Some _, Some _ => (st, [], connection st)
  | _, _ =>
      let error_s := length (handshakes st) in
      let pub := clients st in
      let sub := S (clients st) in
      ({| options := options st; url := url st;
          pubClient := Some pub; subClient := Some sub;
          connection := Some error_s;
          isExplicitlyTerminated := isExplicitlyTerminated st;
          routingMap := routingMap st;
          handshakes := (handshakes st ++
            [{| hs_pub := pub; hs_sub := sub; hs_pub_ready := false;
                hs_sub_ready := false; hs_state := Pending |}])%list;
          emitted := emitted st;
          clients := S (S (clients st)) |},
       [EvCreateClient pub (url st) (RetryStrategy error_s);
        EvCreateClient sub (url st) (RetryStrategy error_s);
        EvOn pub (ERROR_EVENT c) ErrorListener;
        EvOn sub (ERROR_EVENT c) ErrorListener;
        EvOn pub (CONNECT_EVENT c) (ReadyListener error_s);
        EvOn sub (CONNECT_EVENT c) (ReadyListener error_s)],
       Some error_s)
  end.

(** Handle [h] emits [CONNECT_EVENT] and the listener of pipeline [p] runs.
    A settled pipeline has removed its listeners.  When both sides have
    emitted, [zip] emits the pair, [take(1)] passes it on and [tap] runs
    [this.subClient.on(MESSAGE_EVENT, this.createResponseCallback())] on the
    handle the instance holds at that moment; if there is none the read of
    [on] raises and the promise rejects. *)
Definition ready (c : Collaborators) (st : State) (p : promise) (h : handle)
    : State * list event :=
  match handshakes st !! p with
  | Some hs =>
      match hs_state hs with
      | Pending =>
          let pr := hs_pub_ready hs || Nat.eqb h (hs_pub hs) in
          let sr := hs_sub_ready hs || Nat.eqb h (hs_sub hs) in
          let '(r, evs) :=
            if pr && sr then
              match subClient st with
              | Some s =>
                  (Resolved (JArr [JUndefined; JUndefined]),
                   [EvOn s (MESSAGE_EVENT c) ResponseCallback])
              | None => (Rejected (TypeError_read c "on"), [])
              end
            else (Pending, []) in
          (with_handshakes st
             (<[p := {| hs_pub := hs_pub hs; hs_sub := hs_sub hs;
                        hs_pub_ready := pr; hs_sub_ready := sr;
                        hs_state := r |}]> (handshakes st)),
           evs)
      | _ => (st, [])
      end
  | None => (st, [])
  end.

(** [const { err, response, isDisposed, id } = v]: destructuring [null] or
    [undefined] raises; a property an object does not have, and any of
    these four properties of a primitive, an array or an Error, reads as
    [undefined]. *)
Definition destructure (c : Collaborators) (v : jsval)
    : outcome (jsval * jsval * jsval * jsval) :=
  match v with
  | JUndefined | JNull => Throw (TypeError_read c "err")
  | JObj fields =>
      Ok (obj_get fields "err", obj_get fields "response",
          obj_get fields "isDisposed", obj_get fields "id")
  | _ => Ok (JUndefined, JUndefined, JUndefined, JUndefined)
  end.

(** [this.routingMap.get(id)]: the keys of the map are strings, and a [Map]
    compares keys without conversion, so only a string finds an entry. *)
Definition routingMap_get (st : State) (id : jsval) : option callback :=
  match id with
  | JStr s => routingMap st !! s
  | _ => None
  end.

(** The listener returned by [createResponseCallback()], lines 122-143.  It
    reads the routing table and does not change the instance. *)
Definition createResponseCallback (c : Collaborators) (st : State)
    (channel buffer : string) : list event * outcome unit :=
  match JSON_parse c buffer with
  | Throw e => ([], Throw e)
  | Ok packet =>
      match deserialize c packet with
      | Throw e => ([], Throw e)
      | Ok d =>
          match destructure c d with
          | Throw e => ([], Throw e)
          | Ok (err, response, isDisposed, id) =>
              match routingMap_get st id with
              | None => ([], Ok ())
              | Some callback =>
                  if truthy isDisposed || truthy err then
                    ([EvCallback callback
                        (JObj [("err", err); ("response", response);
                               ("isDisposed", JBool true)])], Ok ())
                  else
                    ([EvCallback callback
                        (JObj [("err", err); ("response", response)])],
                     Ok ())
              end
          end
      end
  end.

(** The [catch] clause of [publish], line 172: [callback({ err })], and the
    method falls off its end. *)
Definition publish_catch (st : State) (callback : callback) (err : jsval)
    : State * list event * option closure :=
  (st, [EvCallback callback (JObj [("err", err)])], None).

(** [publish(partialPacket, callback)], lines 146-174; [draw] is the random
    identifier [assignPacketId] draws.  The result is the teardown closure,
    or [None] for [undefined]. *)
Definition publish (c : Collaborators) (st : State) (draw : string)
    (partialPacket : ReadPacket) (callback : callback)
    : State * list event * option closure :=
  match assignPacketId c draw partialPacket with
  | Throw err => publish_catch st callback err
  | Ok packet =>
      match normalizePattern c (pattern partialPacket) with
      | Throw err => publish_catch st callback err
      | Ok pattern =>
          match serialize c (PacketWithId_value packet) with
          | Throw err => publish_catch st callback err
          | Ok serializedPacket =>
              let responseChannel := getResPatternName pattern in
              let st1 :=
                with_routingMap st (<[id packet := callback]> (routingMap st)) in
              match subClient st1 with
              | None =>
                  publish_catch st1 callback (TypeError_read c "subscribe")
              | Some sub =>
                  (st1,
                   [EvSubscribe sub responseChannel
                      (SubscribeAck pattern serializedPacket)],
                   Some (Teardown responseChannel (id packet)))
              end
          end
      end
  end.

(** The acknowledgment callback of [subscribe], lines 157-165.  The Redis
    client calls it with [null] or an [Error] object, here an
    [option js_error]; an Error object is always truthy. *)
Definition subscribe_ack (c : Collaborators) (st : State)
    (pattern : string) (serializedPacket : jsval) (err : option js_error)
    : list event * outcome unit :=
  match err with
  | Some _ => ([], Ok ())
  | None =>
      match pubClient st with
      | None => ([], Throw (TypeError_read c "publish"))
      | Some pub =>
          match JSON_stringify c serializedPacket with
          | Throw e => ([], Throw e)
          | Ok text =>
              ([EvPublish pub (getAckPatternName pattern) text None], Ok ())
          end
      end
  end.

(** The teardown function, lines 167-170. *)
Definition teardown (c : Collaborators) (st : State)
    (responseChannel : string) (id : string)
    : State * list event * outcome unit :=
  match subClient st with
  | None => (st, [], Throw (TypeError_read c "unsubscribe"))
  | Some sub =>
      (with_routingMap st (delete id (routingMap st)),
       [EvUnsubscribe sub responseChannel], Ok ())
  end.

(** [dispatchEvent(packet)], lines 176-185.  An exception raised inside the
    executor of [new Promise] rejects the promise. *)
Definition dispatchEvent (c : Collaborators) (st : State)
    (packet : ReadPacket) : State * list event * outcome promise :=
  match normalizePattern c (pattern packet) with
  | Throw e => (st, [], Throw e)
  | Ok pattern =>
      match serialize c (ReadPacket_value packet) with
      | Throw e => (st, [], Throw e)
      | Ok serializedPacket =>
          let p := length (emitted st) in
          match pubClient st with
          | None =>
              (with_emitted st
                 (emitted st ++ [Rejected (TypeError_read c "publish")])%list,
               [], Ok p)
          | Some pub =>
              match JSON_stringify c serializedPacket with
              | Throw e =>
                  (with_emitted st (emitted st ++ [Rejected e])%list, [], Ok p)
              | Ok text =>
                  (with_emitted st (emitted st ++ [Pending])%list,
                   [EvPublish pub pattern text (Some (PublishAck p))], Ok p)
              end
          end
      end
  end.

(** [resolve(v)] and [reject(e)]: a settled promise stays as it is. *)
Definition settle (r : promise_state) (s : promise_state) : promise_state :=
  match s with
  | Pending => r
  | _ => s
  end.

(** The acknowledgment callback of [publish] in [dispatchEvent], lines
    181-183: [err ? reject(err) : resolve()]. *)
Definition publish_ack (st : State) (p : promise) (err : option js_error)
    : State :=
  with_emitted st
    (alter (settle match err with
                   | Some e => Rejected (JError e)
                   | None => Resolved JUndefined
                   end) p (emitted st)).

(** ** A concrete platform

    Node's [JSON.parse] and [JSON.stringify] on the fragment of JSON that
    [jsval] covers: ASCII text and integer literals.  A text outside the
    fragment (a non-ASCII character, a literal with a fraction or an
    exponent) is outside the domain of this model; [parse] answers with a
    [SyntaxError] there, which Node would not.  The general theorems do not
    use this module; it gives the examples a platform to run on. *)
Module Node.


Definition code (a : ascii) : Z := Z.of_nat (nat_of_ascii a).

Definition is_ws (a : ascii) : bool :=
  (code a =? 32) || (code a =? 9) || (code a =? 10) || (code a =? 13).

Fixpoint skip_ws (s : list ascii) : list ascii :=
  match s with
  | a :: r => if is_ws a then skip_ws r else s
  | [] => []
  end.

Definition digit (a : ascii) : option Z :=
  if (48 <=? code a) && (code a <=? 57) then Some (code a - 48) else None.

Fixpoint parse_digits (acc : Z) (s : list ascii) : Z * list ascii :=
  match s with
  | a :: r =>
      match digit a with
      | Some d => parse_digits (10 * acc + d) r
      | None => (acc, s)
      end
  | [] => (acc, [])
  end.

(** An integer literal: an optional minus sign, then [0] or a digit
    sequence without leading zero; a fraction or exponent part leaves the
    fragment. *)
Definition parse_number (s : list ascii) : option (Z * list ascii) :=
  let '(sign, s1) :=
    match s with
    | "-"%char :: r => (-1, r)
    | _ => (1, s)
    end in
  match s1 with
  | a :: r =>
      match digit a with
      | Some d =>
          let '(n, rest) := if d =? 0 then (0, r) else parse_digits d r in
          match rest with
          | "."%char :: _ | "e"%char :: _ | "E"%char :: _ => None
          | _ => Some (sign * n, rest)
          end
      | None => None
      end
  | [] => None
  end.

Definition hex (a : ascii) : option Z :=
  if (48 <=? code a) && (code a <=? 57) then Some (code a - 48)
  else if (97 <=? code a) && (code a <=? 102) then Some (code a - 87)
  else if (65 <=? code a) && (code a <=? 70) then Some (code a - 55)
  else None.

Definition escaped (e : ascii) : option ascii :=
  if code e =? 34 then Some e
  else if code e =? 92 then Some e
  else if code e =? 47 then Some e
  else if code e =? 98 then Some "008"%char
  else if code e =? 102 then Some "012"%char
  else if code e =? 110 then Some "010"%char
  else if code e =? 114 then Some "013"%char
  else if code e =? 116 then Some "009"%char
  else None.

(** The characters of a string literal after its opening quote, up to and
    including the closing quote. *)
Fixpoint parse_chars (acc : list ascii) (s : list ascii)
    : option (string * list ascii) :=
  match s with
  | [] => None
  | a :: r =>
      if code a =? 34 then Some (String.string_of_list_ascii (rev acc), r)
      else if code a =? 92 then
        match r with
        | "u"%char :: h1 :: h2 :: h3 :: h4 :: r' =>
            match hex h1, hex h2, hex h3, hex h4 with
            | Some 0, Some 0, Some d3, Some d4 =>
                if d3 <? 8
                then parse_chars
                       (ascii_of_nat (Z.to_nat (16 * d3 + d4)) :: acc) r'
                else None
            | _, _, _, _ => None
            end
        | e :: r' =>
            match escaped e with
            | Some x => parse_chars (x :: acc) r'
            | None => None
            end
        | [] => None
        end
      else if (code a <? 32) || (127 <? code a) then None
      else parse_chars (a :: acc) r
  end.

(** [o[k] = v] while an object literal is read: a repeated name keeps its
    place and takes the last value. *)
Fixpoint obj_set (fields : list (string * jsval)) (k : string) (v : jsval)
    : list (string * jsval) :=
  match fields with
  | [] => [(k, v)]
  | (k', v') :: rest =>
      if String.eqb k' k then (k', v) :: rest
      else (k', v') :: obj_set rest k v
  end.

#[warnings="-non-recursive"]
Fixpoint parse_value (fuel : nat) (s : list ascii)
    : option (jsval * list ascii) :=
  match fuel with
  | O => None
  | S fuel =>
      match skip_ws s with
      | "n"%char :: "u"%char :: "l"%char :: "l"%char :: r => Some (JNull, r)
      | "t"%char :: "r"%char :: "u"%char :: "e"%char :: r =>
          Some (JBool true, r)
      | "f"%char :: "a"%char :: "l"%char :: "s"%char :: "e"%char :: r =>
          Some (JBool false, r)
      | "034"%char :: r =>
          match parse_chars [] r with
          | Some (str, r') => Some (JStr str, r')
          | None => None
          end
      | "["%char :: r =>
          match skip_ws r with
          | "]"%char :: r' => Some (JArr [], r')
          | _ =>
              match parse_elements fuel r with
              | Some (vs, r') => Some (JArr vs, r')
              | None => None
              end
          end
      | "{"%char :: r =>
          match skip_ws r with
          | "}"%char :: r' => Some (JObj [], r')
          | _ =>
              match parse_members fuel [] r with
              | Some (fs, r') => Some (JObj fs, r')
              | None => None
              end
          end
      | s' =>
          match parse_number s' with
          | Some (n, r) => Some (JNum n, r)
          | None => None
          end
      end
  end
with parse_elements (fuel : nat) (s : list ascii)
    : option (list jsval * list ascii) :=
  match fuel with
  | O => None
  | S fuel =>
      match parse_value fuel s with
      | Some (v, r) =>
          match skip_ws r with
          | ","%char :: r' =>
              match parse_elements fuel r' with
              | Some (vs, r'') => Some (v :: vs, r'')
              | None => None
              end
          | "]"%char :: r' => Some ([v], r')
          | _ => None
          end
      | None => None
      end
  end
with parse_members (fuel : nat) (acc : list (string * jsval))
    (s : list ascii) : option (list (string * jsval) * list ascii) :=
  match fuel with
  | O => None
  | S fuel =>
      match skip_ws s with
      | "034"%char :: r =>
          match parse_chars [] r with
          | Some (k, r1) =>
              match skip_ws r1 with
              | ":"%char :: r2 =>
                  match parse_value fuel r2 with
                  | Some (v, r3) =>
                      match skip_ws r3 with
                      | ","%char :: r4 =>
                          parse_members fuel (obj_set acc k v) r4
                      | "}"%char :: r4 => Some (obj_set acc k v, r4)
                      | _ => None
                      end
                  | None => None
                  end
              | _ => None
              end
          | None => None
          end
      | _ => None
      end
  end.

Definition SyntaxError : jsval :=
  JError {| e_name := "SyntaxError";
            e_message := "Unexpected token in JSON";
            e_code := None |}.

(** [JSON.parse(text)] *)
Definition parse (text : string) : outcome jsval :=
  let s := String.list_ascii_of_string text in
  match parse_value (2 * length s + 2) s with
  | Some (v, r) =>
      match skip_ws r with
      | [] => Ok v
      | _ => Throw SyntaxError
      end
  | None => Throw SyntaxError
  end.

Definition hex_digit (n : Z) : ascii :=
  ascii_of_nat (Z.to_nat (if n <? 10 then 48 + n else 87 + n)).

(** One character of a string, as [JSON.stringify] writes it. *)
Definition escape (a : ascii) : list ascii :=
  if code a =? 34 then ["092"%char; a]
  else if code a =? 92 then ["092"%char; a]
  else if code a =? 8 then ["092"%char; "b"%char]
  else if code a =? 9 then ["092"%char; "t"%char]
  else if code a =? 10 then ["092"%char; "n"%char]
  else if code a =? 12 then ["092"%char; "f"%char]
  else if code a =? 13 then ["092"%char; "r"%char]
  else if code a <? 32 then
    ["092"%char; "u"%char; "0"%char; "0"%char;
     hex_digit (code a / 16); hex_digit (code a mod 16)]
  else [a].

Definition quote (s : string) : string :=
  String.string_of_list_ascii
    ("034"%char :: concat (map escape (String.list_ascii_of_string s))
     ++ ["034"%char])%list.

Fixpoint join (l : list string) : string :=
  match l with
  | [] => ""
  | [x] => x
  | x :: rest => x +:+ "," +:+ join rest
  end.

(** The text of a value, [None] where [JSON.stringify] gives [undefined].
    A property whose value is [undefined] is left out of an object, an
    [undefined] element of an array is written [null], and an Error object
    shows its own enumerable properties, of which [js_error] keeps [code]. *)
Fixpoint text_of (v : jsval) : option string :=
  match v with
  | JUndefined => None
  | JNull => Some "null"
  | JBool b => Some (if b then "true" else "false")
  | JNum n => Some (pretty n)
  | JStr s => Some (quote s)
  | JArr items =>
      Some ("[" +:+ join (map (fun x => default "null" (text_of x)) items)
            +:+ "]")
  | JObj fields =>
      Some ("{" +:+
            join (omap (fun kv =>
                          match text_of (snd kv) with
                          | Some t => Some (quote (fst kv) +:+ ":" +:+ t)
                          | None => None
                          end) fields)
            +:+ "}")
  | JError e =>
      Some match e_code e with
           | Some k => "{" +:+ quote "code" +:+ ":" +:+ quote k +:+ "}"
           | None => "{}"
           end
  end.

(** [JSON.stringify(v)]; it does not raise on a value of [jsval]. *)
Definition stringify (v : jsval) : outcome jsval :=
  Ok match text_of v with
     | Some t => JStr t
     | None => JUndefined
     end.

(** Modelled from the spec: the constants of [../constants] and
    [./constants], the identity serializer and deserializer the client uses
    when no override is configured, [assignPacketId], which merges a freshly
    generated correlation id into the packet, and [normalizePattern], a
    deterministic, pure string transform (here the identity); none of them
    is part of the sources at hand. *)
Definition collaborators : Collaborators :=
  {| ECONNREFUSED := "ECONNREFUSED";
     REDIS_DEFAULT_URL := "redis://localhost:6379";
     CONNECT_EVENT := "connect";
     ERROR_EVENT := "error";
     MESSAGE_EVENT := "message";
     serialize := Ok;
     deserialize := Ok;
     assignPacketId := fun draw p => Ok {| id := draw; packet := p |};
     normalizePattern := Ok;
     JSON_parse := parse;
     JSON_stringify := stringify;
     TypeError_read := fun p =>
       JError {| e_name := "TypeError";
                 e_message := "Cannot read property '" +:+ p +:+ "' of null";
                 e_code := None |} |}.

End Node.

(** ** The instance over time

    What can happen to an instance: a caller invokes a method or a teardown
    function it was given, or the transport invokes one of the callbacks it
    was given. *)
Inductive input :=
| Connect
| Close
| Publish (draw : string) (partialPacket : ReadPacket) (callback : callback)
| DispatchEvent (packet : ReadPacket)
| Retry (error_s : subject) (opts : RetryStrategyOptions)
| Ready (p : promise) (h : handle)
| Message (channel buffer : string)
| SubscribeAcked (pattern : string) (serializedPacket : jsval)
    (err : option js_error)
| TornDown (responseChannel id : string)
| PublishAcked (p : promise) (err : option js_error).

Definition step (c : Collaborators) (st : State) (i : input)
    : State * list event :=
  match i with
  | Connect => let '(st', evs, _) := connect c st in (st', evs)
  | Close => close st
  | Publish draw partialPacket callback =>
      let '(st', evs, _) := publish c st draw partialPacket callback in
      (st', evs)
  | DispatchEvent packet =>
      let '(st', evs, _) := dispatchEvent c st packet in (st', evs)
  | Retry error_s opts =>
      let '(st', evs, _) := createRetryStrategy c st opts error_s in
      (st', evs)
  | Ready p h => ready c st p h
  | Message channel buffer =>
      (st, fst (createResponseCallback c st channel buffer))
  | SubscribeAcked pattern serializedPacket err =>
      (st, fst (subscribe_ack c st pattern serializedPacket err))
  | TornDown responseChannel id =>
      let '(st', evs, _) := teardown c st responseChannel id in (st', evs)
  | PublishAcked p err => (publish_ack st p err, [])
  end.

Fixpoint run (c : Collaborators) (st : State) (inputs : list input) : State :=
  match inputs with
  | [] => st
  | i :: rest => run c (fst (step c st i)) rest
  end.

(** The transport runs the acknowledgment callback of a [subscribe] call
    only if it was given that callback in a [subscribe] call before. *)
Definition enabled (log : list (input * list event)) (i : input) : Prop :=
  match i with
  | SubscribeAcked pattern serializedPacket _ =>
      exists n j evs h channel,
        log !! n = Some (j, evs) /\
        EvSubscribe h channel (SubscribeAck pattern serializedPacket) ∈ evs
  | _ => True
  end.

(** The histories of an instance: each entry is an input and the events the
    instance produced in answer. *)
Inductive reachable (c : Collaborators) (o : option RedisOptions)
    : list (input * list event) -> State -> Prop :=
| reachable_new : reachable c o [] (new_ClientRedis c o)
| reachable_step log st i :
    reachable c o log st ->
    enabled log i ->
    reachable c o (log ++ [(i, snd (step c st i))]) (fst (step c st i)).

(** ** Example instances *)
Module Examples.

(** A JSON text written with apostrophes in place of double quotes. *)
Definition dq (s : string) : string :=
  String.string_of_list_ascii
    (map (fun a => if Node.code a =? 39 then "034"%char else a)
       (String.list_ascii_of_string s)).

Definition opts_3_50 : option RedisOptions :=
  Some {| opt_url := None; opt_retryAttempts := Some 3;
          opt_retryDelay := Some 50 |}.

(** A new client, and the same client once connected: [connect()], then
    both handles emit [CONNECT_EVENT]. *)
Definition fresh : State := new_ClientRedis Node.collaborators opts_3_50.

Definition connected : State :=
  run Node.collaborators fresh [Connect; Ready 0 0; Ready 0 1].

Definition sum : ReadPacket :=
  {| pattern := "sum"; data := JArr [JNum 1; JNum 2] |}.

(** The connected client after [send] of [sum] with callback 7, for which
    [assignPacketId] drew the identifier [a]. *)
Definition sent : State :=
  run Node.collaborators connected [Publish "a" sum 7].

(** A serializer that raises, as [JSON.stringify] does on a circular
    structure; everything else as in [Node.collaborators]. *)
Definition circular : jsval :=
  JError {| e_name := "TypeError";
            e_message := "Converting circular structure to JSON";
            e_code := None |}.

Definition throwing : Collaborators :=
  {| ECONNREFUSED := ECONNREFUSED Node.collaborators;
     REDIS_DEFAULT_URL := REDIS_DEFAULT_URL Node.collaborators;
     CONNECT_EVENT := CONNECT_EVENT Node.collaborators;
     ERROR_EVENT := ERROR_EVENT Node.collaborators;
     MESSAGE_EVENT := MESSAGE_EVENT Node.collaborators;
     serialize := fun _ => Throw circular;
     deserialize := deserialize Node.collaborators;
     assignPacketId := assignPacketId Node.collaborators;
     normalizePattern := normalizePattern Node.collaborators;
     JSON_parse := JSON_parse Node.collaborators;
     JSON_stringify := JSON_stringify Node.collaborators;
     TypeError_read := TypeError_read Node.collaborators |}.

End Examples.

(** ** Vocabulary of the statements *)

(** Building or serializing the packet raises [e] in [publish], lines
    151-153: [assignPacketId] raises it, or [normalizePattern] does, or
    [serialize] does. *)
Definition building_throws (c : Collaborators) (draw : string)
    (partialPacket : ReadPacket) (e : jsval) : Prop :=
  assignPacketId c draw partialPacket = Throw e
  \/ exists packet,
       assignPacketId c draw partialPacket = Ok packet
       /\ (normalizePattern c (pattern partialPacket) = Throw e
           \/ exists normalized,
                normalizePattern c (pattern partialPacket) = Ok normalized
                /\ serialize c (PacketWithId_value packet) = Throw e).

(** A network action: a call of [subscribe], [unsubscribe] or [publish] on
    a Redis client. *)
Definition network_action (ev : event) : bool :=
  match ev with
  | EvSubscribe _ _ _ | EvUnsubscribe _ _ | EvPublish _ _ _ _ => true
  | _ => false
  end.

(** Input [i] is a [send] whose packet gets the identifier [id0]. *)
Definition registers (c : Collaborators) (id0 : string) (i : input) : Prop :=
  match i with
  | Publish draw partialPacket _ =>
      exists packet,
        assignPacketId c draw partialPacket = Ok packet /\ id packet = id0
  | _ => False
  end.

(** The response in [buffer] carries the identifier [id0]. *)
Definition carries (c : Collaborators) (buffer : string) (id0 : string)
    : Prop :=
  exists packet d err response isDisposed,
    JSON_parse c buffer = Ok packet
    /\ deserialize c packet = Ok d
    /\ destructure c d = Ok (err, response, isDisposed, JStr id0).

(** What the history says about pipeline [p] in state [hs]: a side is
    marked ready only after its handle has signalled [CONNECT_EVENT] to the
    pipeline; the promise is resolved only when both sides are marked ready;
    and it is rejected only by a refused connection that the retry strategy
    put on the error subject, or, with both sides ready, by the failure of
    [tap] on a client that was closed in the meantime. *)
Definition handshake_history (c : Collaborators)
    (log : list (input * list event)) (p : nat) (hs : handshake) : Prop :=
  (hs_pub_ready hs = true -> Ready p (hs_pub hs) ∈ log.*1)
  /\ (hs_sub_ready hs = true -> Ready p (hs_sub hs) ∈ log.*1)
  /\ (forall v, hs_state hs = Resolved v ->
        hs_pub_ready hs = true /\ hs_sub_ready hs = true)
  /\ (forall e, hs_state hs = Rejected e ->
        (exists opts,
           Retry p opts ∈ log.*1 /\ error opts = e
           /\ code_of e = JStr (ECONNREFUSED c))
        \/ (hs_pub_ready hs = true /\ hs_sub_ready hs = true
            /\ e = TypeError_read c "on")).

Definition is_createClient (ev : event) : bool :=
  match ev with
  | EvCreateClient _ _ _ => true
  | _ => false
  end.

(** The events of a run, in order. *)
Fixpoint trace (c : Collaborators) (st : State) (inputs : list input)
    : list event :=
  match inputs with
  | [] => []
  | i :: rest => (step c st i).2 ++ trace c (step c st i).1 rest
  end.

(** Input [i] is a teardown for the identifier [id0]. *)
Definition tears_down (id0 : string) (i : input) : Prop :=
  match i with
  | TornDown _ id1 => id1 = id0
  | _ => False
  end.

(** * Properties *)

(** ** The retry strategy *)

Lemma is_refused_code c v :
  is_refused c v = true <-> code_of v = JStr (ECONNREFUSED c).
Proof.
  unfold is_refused. split.
  - intros H. apply andb_prop in H as [_ H].
    destruct (code_of v); try discriminate.
    apply String.eqb_eq in H. by subst.
  - intros H. rewrite H, String.eqb_refl, andb_true_r.
    destruct v; simpl in *; try discriminate; reflexivity.
Qed.

Lemma createRetryStrategy_events c st opts error_s :
  (createRetryStrategy c st opts error_s).1.2 =
  if is_refused c (error opts) then [EvSubjectError error_s (error opts)]
  else [].
Proof.
  unfold createRetryStrategy.
  destruct (is_refused c (error opts)); simpl;
    repeat (match goal with |- context [if ?b then _ else _] =>
              destruct b end; simpl); reflexivity.
Qed.

Lemma createRetryStrategy_result c st opts error_s :
  (createRetryStrategy c st opts error_s).2 =
  if isExplicitlyTerminated st then RetryUndefined
  else if negb (truthy_num (getOptionsProp (options st) opt_retryAttempts))
          || match getOptionsProp (options st) opt_retryAttempts with
             | Some n => n <? attempt opts
             | None => false
             end
  then RetryError "Retry time exhausted"
  else RetryNumber
         (match getOptionsProp (options st) opt_retryDelay with
          | Some d => if d =? 0 then 0 else d
          | None => 0
          end).
Proof.
  unfold createRetryStrategy.
  destruct (is_refused c (error opts)); simpl;
    repeat (match goal with |- context [if ?b then _ else _] =>
              destruct b end; simpl); reflexivity.
Qed.

(** C3. [createRetryStrategy] follows its decision table in order, for every
    state, options bag and input of the transport: it emits the last error
    on the error subject, once, exactly when the code of that error is
    [ECONNREFUSED]; then it returns [undefined] if [isExplicitlyTerminated]
    is set; then an [Error] if [retryAttempts] is not configured or the
    attempt number exceeds it; otherwise, the attempt number being one the
    transport hands out (it numbers its attempts from 1), the configured
    [retryDelay], 0 by default.  With [retryAttempts = 3] and
    [retryDelay = 50], attempt 1 returns 50 and attempt 4 returns an
    [Error]. *)
Theorem createRetryStrategy_decision_table c st opts error_s :
  let res := createRetryStrategy c st opts error_s in
  let retryAttempts := getOptionsProp (options st) opt_retryAttempts in
  let retryDelay := getOptionsProp (options st) opt_retryDelay in
  (code_of (error opts) = JStr (ECONNREFUSED c) ->
     res.1.2 = [EvSubjectError error_s (error opts)])
  /\ (code_of (error opts) <> JStr (ECONNREFUSED c) ->
        res.1.2 = [] /\ res.1.1 = st)
  /\ (isExplicitlyTerminated st = true -> res.2 = RetryUndefined)
  /\ (isExplicitlyTerminated st = false ->
      retryAttempts = None \/
      (exists n, retryAttempts = Some n /\ n < attempt opts) ->
      res.2 = RetryError "Retry time exhausted")
  /\ (isExplicitlyTerminated st = false ->
      0 < attempt opts ->
      forall n, retryAttempts = Some n -> attempt opts <= n ->
      res.2 = RetryNumber (default 0 retryDelay))
  /\ (isExplicitlyTerminated st = false ->
      retryAttempts = Some 3 -> retryDelay = Some 50 ->
      (attempt opts = 1 -> res.2 = RetryNumber 50)
      /\ (attempt opts = 4 -> res.2 = RetryError "Retry time exhausted")).
Proof.
  intros res retryAttempts retryDelay.
  assert (Hev := createRetryStrategy_events c st opts error_s).
  assert (Hres := createRetryStrategy_result c st opts error_s).
  fold res in Hev, Hres. fold retryAttempts retryDelay in Hres.
  split; [|split; [|split; [|split; [|split]]]].
  - intros Hcode. apply is_refused_code in Hcode. by rewrite Hev, Hcode.
  - intros Hcode.
    assert (E : is_refused c (error opts) = false).
    { destruct (is_refused c (error opts)) eqn:E; [|done].
      apply is_refused_code in E. congruence. }
    split; [by rewrite Hev, E|].
    subst res. unfold createRetryStrategy. rewrite E. simpl.
    repeat (match goal with |- context [if ?b then _ else _] =>
              destruct b end; simpl); reflexivity.
  - intros Ht. by rewrite Hres, Ht.
  - intros Ht Hex. rewrite Hres, Ht.
    destruct Hex as [-> | (n & -> & Hn)]; [done|].
    simpl. replace (n <? attempt opts) with true by (symmetry; lia).
    by rewrite orb_true_r.
  - intros Ht Hpos n Hn Hle. rewrite Hres, Ht, Hn. simpl.
    replace (n =? 0) with false by lia.
    replace (n <? attempt opts) with false by lia. simpl.
    destruct retryDelay as [d|]; simpl; [|done].
    destruct (d =? 0) eqn:E; [|done]. f_equal. lia.
  - intros Ht Hra Hrd. rewrite Hres, Ht, Hra, Hrd.
    split; intros ->; reflexivity.
Qed.

(** The table on the example client, which is configured for 3 attempts
    with a delay of 50: attempts 1 and 3 return 50, attempt 4 returns the
    [Error]. *)
Lemma createRetryStrategy_decision_table_witness :
  (createRetryStrategy Node.collaborators Examples.fresh
     {| error := JUndefined; attempt := 1 |} 0).2 = RetryNumber 50
  /\ (createRetryStrategy Node.collaborators Examples.fresh
        {| error := JUndefined; attempt := 3 |} 0).2 = RetryNumber 50
  /\ (createRetryStrategy Node.collaborators Examples.fresh
        {| error := JUndefined; attempt := 4 |} 0).2
     = RetryError "Retry time exhausted".
Proof.
  split; [|split].
  - destruct (createRetryStrategy_decision_table Node.collaborators
                Examples.fresh {| error := JUndefined; attempt := 1 |} 0)
      as (_ & _ & _ & _ & _ & H6).
    apply H6; reflexivity.
  - destruct (createRetryStrategy_decision_table Node.collaborators
                Examples.fresh {| error := JUndefined; attempt := 3 |} 0)
      as (_ & _ & _ & _ & H5 & _).
    apply (H5 eq_refl ltac:(simpl; lia) 3); [reflexivity | simpl; lia].
  - destruct (createRetryStrategy_decision_table Node.collaborators
                Examples.fresh {| error := JUndefined; attempt := 4 |} 0)
      as (_ & _ & _ & H4 & _ & _).
    apply H4; [reflexivity|]. right. exists 3. split; [reflexivity|].
    simpl; lia.
Defined.

(** ** [publish]: the synchronous error path *)

Lemma publish_building_throws c st draw partialPacket callback e :
  building_throws c draw partialPacket e ->
  publish c st draw partialPacket callback =
  (st, [EvCallback callback (JObj [("err", e)])], None).
Proof.
  unfold publish, publish_catch.
  intros [H | (packet & Ha & [H | (pat & Hn & H)])].
  - by rewrite H.
  - by rewrite Ha, H.
  - by rewrite Ha, Hn, H.
Qed.

(** C5. If building or serializing the packet raises inside [publish], the
    callback of the call is invoked, once and before [publish] returns, with
    the error result [{ err }], and no network action occurs: nothing is
    subscribed, nothing is published. *)
Theorem publish_error_result c st draw partialPacket callback e :
  building_throws c draw partialPacket e ->
  let res := publish c st draw partialPacket callback in
  res.1.2 = [EvCallback callback (JObj [("err", e)])]
  /\ filter (fun ev => network_action ev = true) res.1.2 = []
  /\ forall h channel ack text o,
       (EvSubscribe h channel ack ∉ res.1.2)
       /\ (EvPublish h channel text o ∉ res.1.2).
Proof.
  intros H res. subst res.
  rewrite (publish_building_throws _ _ _ _ _ _ H). simpl.
  split; [done|]. split; [done|].
  intros h channel ack text o.
  split; intros Hin; apply list_elem_of_singleton in Hin; discriminate.
Qed.

Lemma publish_error_result_witness :
  (publish Examples.throwing Examples.connected "a" Examples.sum 7).1.2 =
  [EvCallback 7 (JObj [("err", Examples.circular)])].
Proof.
  assert (H : building_throws Examples.throwing "a" Examples.sum
                Examples.circular).
  { right. eexists. split; [reflexivity|]. right. eexists.
    split; reflexivity. }
  exact (proj1 (publish_error_result Examples.throwing Examples.connected
                  "a" Examples.sum 7 Examples.circular H)).
Defined.

(** C9. When building or serializing the packet raises inside [publish], the
    method returns [undefined], not a teardown function, and it has not
    touched the routing table: the [set] comes after the serialization. *)
Theorem publish_error_returns_undefined c st draw partialPacket callback e :
  building_throws c draw partialPacket e ->
  let res := publish c st draw partialPacket callback in
  res.2 = None
  /\ routingMap res.1.1 = routingMap st
  /\ res.1.1 = st.
Proof.
  intros H res. subst res.
  by rewrite (publish_building_throws _ _ _ _ _ _ H).
Qed.

Lemma publish_error_returns_undefined_witness :
  (publish Examples.throwing Examples.connected "a" Examples.sum 7).2 = None
  /\ routingMap
       (publish Examples.throwing Examples.connected "a" Examples.sum 7).1.1
     !! "a" = None.
Proof.
  assert (H : building_throws Examples.throwing "a" Examples.sum
                Examples.circular).
  { right. eexists. split; [reflexivity|]. right. eexists.
    split; reflexivity. }
  destruct (publish_error_returns_undefined Examples.throwing
              Examples.connected "a" Examples.sum 7 Examples.circular H)
    as (H1 & H2 & _).
  split; [exact H1|]. rewrite H2. reflexivity.
Defined.

(** ** The response router *)

Lemma createResponseCallback_unfold c st channel buffer packet d
    err response isDisposed id :
  JSON_parse c buffer = Ok packet ->
  deserialize c packet = Ok d ->
  destructure c d = Ok (err, response, isDisposed, id) ->
  createResponseCallback c st channel buffer =
  match routingMap_get st id with
  | None => ([], Ok ())
  | Some callback =>
      ([EvCallback callback
          (JObj (if truthy isDisposed || truthy err
                 then [("err", err); ("response", response);
                       ("isDisposed", JBool true)]
                 else [("err", err); ("response", response)]))], Ok ())
  end.
Proof.
  intros Hp Hd Hx. unfold createResponseCallback. rewrite Hp, Hd, Hx.
  destruct (routingMap_get st id); [|done].
  by destruct (truthy isDisposed || truthy err).
Qed.

Lemma destructure_throws c d :
  is_throw (destructure c d) = true <-> d = JUndefined \/ d = JNull.
Proof.
  destruct d; simpl; split; intros H; try discriminate; auto;
    destruct H; discriminate.
Qed.

(** A response whose [err] is present and falsy (here the empty string) is
    delivered without [isDisposed]: the router of the client [Examples.sent]
    receives [{"id":"a","err":"","response":3}] for the pending call [a]
    and hands [{ err: "", response: 3 }] to the callback. *)
Lemma createResponseCallback_falsy_err_is_not_terminal :
  routingMap Examples.sent !! "a" = Some 7%nat
  /\ JSON_parse Node.collaborators
       (Examples.dq "{'id':'a','err':'','response':3}") =
     Ok (JObj [("id", JStr "a"); ("err", JStr ""); ("response", JNum 3)])
  /\ createResponseCallback Node.collaborators Examples.sent "sum_res"
       (Examples.dq "{'id':'a','err':'','response':3}") =
     ([EvCallback 7 (JObj [("err", JStr ""); ("response", JNum 3)])], Ok ()).
Proof. repeat split; vm_compute; reflexivity. Qed.

(** C2, amended.  For every inbound buffer that parses and deserializes to
    [{ id, err, response, isDisposed }], the router looks [id] up in the
    routing table: with no callback registered it returns without any
    effect; with one registered and [isDisposed] or [err] truthy it invokes
    the callback exactly once with [{ err, response, isDisposed: true }];
    otherwise it invokes it exactly once with [{ err, response }], which has
    no [isDisposed] field.  The instance is the same afterwards. *)
Theorem createResponseCallback_routes c st channel buffer packet d
    err response isDisposed id :
  JSON_parse c buffer = Ok packet ->
  deserialize c packet = Ok d ->
  destructure c d = Ok (err, response, isDisposed, id) ->
  let res := createResponseCallback c st channel buffer in
  (routingMap_get st id = None -> res = ([], Ok ()))
  /\ (forall callback,
        routingMap_get st id = Some callback ->
        truthy isDisposed = true \/ truthy err = true ->
        res = ([EvCallback callback
                  (JObj [("err", err); ("response", response);
                         ("isDisposed", JBool true)])], Ok ()))
  /\ (forall callback,
        routingMap_get st id = Some callback ->
        truthy isDisposed = false -> truthy err = false ->
        res = ([EvCallback callback
                  (JObj [("err", err); ("response", response)])], Ok ())
        /\ forall v,
             EvCallback callback
               (JObj [("err", err); ("response", response);
                      ("isDisposed", v)]) ∉ res.1)
  /\ (step c st (Message channel buffer)).1 = st.
Proof.
  intros Hp Hd Hx res. subst res.
  rewrite (createResponseCallback_unfold _ _ _ _ _ _ _ _ _ _ Hp Hd Hx).
  split; [|split; [|split]].
  - by intros ->.
  - intros callback -> Ht.
    replace (truthy isDisposed || truthy err) with true; [done|].
    symmetry. apply orb_true_iff. exact Ht.
  - intros callback -> H1 H2. rewrite H1, H2. simpl. split; [done|].
    intros v Hin. apply list_elem_of_singleton in Hin. discriminate.
  - reflexivity.
Qed.

(** The end-to-end scenario: the pending call [a] of [Examples.sent]
    receives [{"id":"a","response":3,"isDisposed":true}]. *)
Lemma createResponseCallback_routes_witness :
  createResponseCallback Node.collaborators Examples.sent "sum_res"
    (Examples.dq "{'id':'a','response':3,'isDisposed':true}") =
  ([EvCallback 7
      (JObj [("err", JUndefined); ("response", JNum 3);
             ("isDisposed", JBool true)])], Ok ()).
Proof.
  refine (proj1 (proj2
    (createResponseCallback_routes Node.collaborators Examples.sent "sum_res"
       (Examples.dq "{'id':'a','response':3,'isDisposed':true}")
       (JObj [("id", JStr "a"); ("response", JNum 3);
              ("isDisposed", JBool true)])
       (JObj [("id", JStr "a"); ("response", JNum 3);
              ("isDisposed", JBool true)])
       JUndefined (JNum 3) (JBool true) (JStr "a") _ _ _)) 7%nat _ _).
  - vm_compute; reflexivity.
  - reflexivity.
  - reflexivity.
  - vm_compute; reflexivity.
  - left; reflexivity.
Defined.

(** A buffer that is not valid JSON makes the handler raise: on [{oops]
    [JSON.parse] raises a [SyntaxError], which leaves the handler. *)
Lemma createResponseCallback_raises_on_invalid_JSON :
  createResponseCallback Node.collaborators Examples.sent "sum_res" "{oops"
  = ([], Throw Node.SyntaxError).
Proof. vm_compute; reflexivity. Qed.

(** C8, amended.  The message handler has no [try]: for every inbound
    buffer it raises exactly when [JSON.parse] raises on the buffer, when
    the deserializer raises, or when the deserialized value is [null] or
    [undefined] and cannot be destructured.  When it raises it has invoked
    no callback, so the failure is reported to no pending call; on every
    other buffer it completes without raising. *)
Theorem createResponseCallback_raises_iff c st channel buffer :
  let res := createResponseCallback c st channel buffer in
  (is_throw res.2 = true <->
     (exists e, JSON_parse c buffer = Throw e)
     \/ (exists packet e,
           JSON_parse c buffer = Ok packet /\ deserialize c packet = Throw e)
     \/ (exists packet d,
           JSON_parse c buffer = Ok packet /\ deserialize c packet = Ok d
           /\ (d = JUndefined \/ d = JNull)))
  /\ (is_throw res.2 = true -> res.1 = [])
  /\ (is_throw res.2 = false -> res.2 = Ok ()).
Proof.
  intros res. subst res. unfold createResponseCallback.
  destruct (JSON_parse c buffer) as [packet|e] eqn:Hp; simpl.
  2:{ split; [|done]. split; [eauto|done]. }
  destruct (deserialize c packet) as [d|e] eqn:Hd; simpl.
  2:{ split; [|done]. split; [intros _; right; left; eauto|done]. }
  destruct (destructure c d) as [[[[err response] isDisposed] id]|e] eqn:Hx;
    simpl.
  - assert (Hn : ~ (d = JUndefined \/ d = JNull)).
    { intros H. apply (destructure_throws c) in H. by rewrite Hx in H. }
    destruct (routingMap_get st id);
      [destruct (truthy isDisposed || truthy err)|]; simpl;
      (split; [split; [done|]|done]);
      intros [(e & He) | [(p & e & Hp' & He) | (p & d' & Hp' & Hd' & H)]];
      try discriminate; inversion Hp'; subst; rewrite Hd in *;
      try discriminate; inversion Hd'; subst; contradiction.
  - split; [|done]. split; [|done]. intros _. right; right.
    exists packet, d. repeat split; try done.
    apply (destructure_throws c). by rewrite Hx.
Qed.

(** ** Fields that a step leaves alone *)

(** Case analysis on every test a method makes. *)
Ltac break_match :=
  repeat match goal with
    | |- context [match ?x with _ => _ end] =>
        lazymatch x with
        | context [match _ with _ => _ end] => fail
        | _ => destruct x eqn:?; simpl
        end
    end.

Ltac step_cases i :=
  destruct i; unfold step, connect, close, publish, publish_catch,
    dispatchEvent, createRetryStrategy, ready, teardown, publish_ack,
    subject_error; simpl; break_match; simpl.

Lemma step_isExplicitlyTerminated c st i :
  isExplicitlyTerminated st = true ->
  isExplicitlyTerminated (step c st i).1 = true.
Proof. intros H. step_cases i; done. Qed.

Lemma run_isExplicitlyTerminated c inputs : forall st,
  isExplicitlyTerminated st = true ->
  isExplicitlyTerminated (run c st inputs) = true.
Proof.
  induction inputs as [|i rest IH]; intros st H; simpl; [done|].
  apply IH. by apply step_isExplicitlyTerminated.
Qed.

(** C10. [close()] sets [isExplicitlyTerminated] and no operation resets
    it: whatever happens to the instance after [close()], a later [connect()]
    included, the flag is still set, and the retry strategy returns
    [undefined] whatever the attempt number and the configured
    [retryAttempts] are. *)
Theorem closed_client_never_retries c st inputs opts error_s :
  let closed := (close st).1 in
  let later := run c closed inputs in
  isExplicitlyTerminated closed = true
  /\ isExplicitlyTerminated later = true
  /\ isExplicitlyTerminated (step c later Connect).1 = true
  /\ (createRetryStrategy c later opts error_s).2 = RetryUndefined
  /\ (createRetryStrategy c (step c later Connect).1 opts error_s).2
     = RetryUndefined.
Proof.
  intros closed later.
  assert (H1 : isExplicitlyTerminated closed = true) by reflexivity.
  assert (H2 : isExplicitlyTerminated later = true)
    by (by apply run_isExplicitlyTerminated).
  assert (H3 := step_isExplicitlyTerminated c later Connect H2).
  repeat split; try done;
    rewrite createRetryStrategy_result; by rewrite ?H2, ?H3.
Qed.

(** ** [dispatchEvent] *)

Lemma publish_ack_lookup st p err s :
  emitted st !! p = Some s ->
  emitted (publish_ack st p err) !! p =
  Some (settle match err with
               | Some e => Rejected (JError e)
               | None => Resolved JUndefined
               end s).
Proof.
  intros H. unfold publish_ack. simpl.
  rewrite list_lookup_alter_eq. by rewrite H.
Qed.

(** C7. On a connected client, [dispatchEvent] publishes the serialized
    packet, which has the fields [pattern] and [data] and no [id], on the
    channel named by the normalized pattern itself, with no suffix; it leaves
    the routing table as it was; and the promise it returns, pending at
    first, resolves when the acknowledgment of that [publish] fires without
    error and rejects with the error the acknowledgment carries. *)
Theorem dispatchEvent_publishes_on_pattern c st packet normalized
    serializedPacket pub text :
  normalizePattern c (pattern packet) = Ok normalized ->
  serialize c (JObj [("pattern", JStr (pattern packet));
                     ("data", data packet)]) = Ok serializedPacket ->
  JSON_stringify c serializedPacket = Ok text ->
  pubClient st = Some pub ->
  exists p st',
    dispatchEvent c st packet =
      (st', [EvPublish pub normalized text (Some (PublishAck p))], Ok p)
    /\ routingMap st' = routingMap st
    /\ emitted st !! p = None
    /\ emitted st' !! p = Some Pending
    /\ emitted (publish_ack st' p None) !! p = Some (Resolved JUndefined)
    /\ (forall e,
          emitted (publish_ack st' p (Some e)) !! p =
          Some (Rejected (JError e)))
    /\ routingMap (publish_ack st' p None) = routingMap st
    /\ forall later err,
         emitted later !! p = Some Pending ->
         emitted (step c later (PublishAcked p err)).1 !! p =
         Some match err with
              | Some e => Rejected (JError e)
              | None => Resolved JUndefined
              end.
Proof.
  intros Hn Hs Hj Hp.
  exists (length (emitted st)),
    (with_emitted st (emitted st ++ [Pending])%list).
  assert (Hl : (emitted st ++ [Pending])%list !! length (emitted st)
               = Some Pending).
  { rewrite lookup_app_r by lia. by rewrite Nat.sub_diag. }
  split_and!.
  - unfold dispatchEvent, ReadPacket_value. by rewrite Hn, Hs, Hp, Hj.
  - done.
  - by apply lookup_ge_None_2.
  - exact Hl.
  - by rewrite (publish_ack_lookup _ _ _ Pending).
  - intros e. by rewrite (publish_ack_lookup _ _ _ Pending).
  - done.
  - intros later err H. simpl.
    change (emitted (publish_ack later (length (emitted st)) err)
            !! length (emitted st) =
            Some match err with
                 | Some e => Rejected (JError e)
                 | None => Resolved JUndefined
                 end).
    rewrite (publish_ack_lookup _ _ _ Pending) by done. by destruct err.
Qed.

(** An event on the connected example client: the publish goes to the
    channel [sum], and its acknowledgment resolves the promise. *)
Lemma dispatchEvent_publishes_on_pattern_witness :
  exists p st',
    dispatchEvent Node.collaborators Examples.connected Examples.sum =
      (st', [EvPublish 0 "sum"
               (JStr (Examples.dq "{'pattern':'sum','data':[1,2]}"))
               (Some (PublishAck p))], Ok p)
    /\ emitted (publish_ack st' p None) !! p = Some (Resolved JUndefined).
Proof.
  destruct (dispatchEvent_publishes_on_pattern Node.collaborators
              Examples.connected Examples.sum "sum"
              (JObj [("pattern", JStr "sum");
                     ("data", JArr [JNum 1; JNum 2])]) 0%nat
              (JStr (Examples.dq "{'pattern':'sum','data':[1,2]}")))
    as (p & st' & H1 & _ & _ & _ & H5 & _).
  - reflexivity.
  - reflexivity.
  - vm_compute; reflexivity.
  - reflexivity.
  - exists p, st'. split; [exact H1 | exact H5].
Defined.

(** ** Teardown *)

Lemma publish_routingMap c st draw partialPacket callback :
  routingMap (publish c st draw partialPacket callback).1.1 = routingMap st
  \/ exists packet,
       assignPacketId c draw partialPacket = Ok packet
       /\ routingMap (publish c st draw partialPacket callback).1.1 =
          <[id packet := callback]> (routingMap st).
Proof.
  unfold publish, publish_catch.
  destruct (assignPacketId c draw partialPacket) as [packet|]; [|by left].
  destruct (normalizePattern c (pattern partialPacket)); [|by left].
  destruct (serialize c (PacketWithId_value packet)); [|by left].
  right. exists packet. split; [done|]. simpl.
  by destruct (subClient st).
Qed.

Lemma step_keeps_unregistered c st i (id0 : string) :
  ~ registers c id0 i ->
  routingMap st !! id0 = None ->
  routingMap (step c st i).1 !! id0 = None.
Proof.
  intros Hi H. destruct i;
    try (unfold step, connect, close, dispatchEvent, createRetryStrategy,
           ready, publish_ack, subject_error; simpl; break_match; simpl;
         done).
  - simpl.
    destruct (publish c st draw partialPacket callback) as [[st' evs] r]
      eqn:E.
    destruct (publish_routingMap c st draw partialPacket callback)
      as [Hr | (packet & Ha & Hr)]; rewrite E in Hr; simpl in *.
    + by rewrite Hr.
    + rewrite Hr. rewrite lookup_insert_ne; [done|].
      intros Heq. apply Hi. eauto.
  - unfold step, teardown. destruct (subClient st); simpl; [|done].
    by apply lookup_delete_None; right.
Qed.

Lemma run_keeps_unregistered c (id0 : string) inputs : forall st,
  Forall (fun i => ~ registers c id0 i) inputs ->
  routingMap st !! id0 = None ->
  routingMap (run c st inputs) !! id0 = None.
Proof.
  induction inputs as [|i rest IH]; intros st Hf H; simpl; [done|].
  inversion Hf; subst. apply IH; [done|].
  by apply step_keeps_unregistered.
Qed.

Lemma createResponseCallback_drops c st channel buffer id0 :
  carries c buffer id0 ->
  routingMap st !! id0 = None ->
  createResponseCallback c st channel buffer = ([], Ok ()).
Proof.
  intros (packet & d & err & response & isDisposed & Hp & Hd & Hx) H.
  rewrite (createResponseCallback_unfold _ _ _ _ _ _ _ _ _ _ Hp Hd Hx).
  simpl. by rewrite H.
Qed.

(** C4. When [send] has stored the callback under the identifier of the
    packet and returned the teardown function, running that function on a
    client that still holds its subscriber handle unsubscribes the response
    channel the call subscribed to and removes the identifier from the
    routing table; from then on, whatever happens to the instance short of
    a new [send] that is given the same identifier, a response that carries
    the identifier finds no callback: the router invokes nothing and
    returns. *)
Theorem teardown_unregisters c st draw partialPacket callback st1 evs
    responseChannel id0 :
  publish c st draw partialPacket callback =
    (st1, evs, Some (Teardown responseChannel id0)) ->
  routingMap st1 !! id0 = Some callback
  /\ (exists sub0 ack, evs = [EvSubscribe sub0 responseChannel ack])
  /\ forall before sub,
       subClient before = Some sub ->
       let td := teardown c before responseChannel id0 in
       td.1.2 = [EvUnsubscribe sub responseChannel]
       /\ td.2 = Ok ()
       /\ routingMap td.1.1 !! id0 = None
       /\ forall inputs channel buffer,
            Forall (fun i => ~ registers c id0 i) inputs ->
            carries c buffer id0 ->
            createResponseCallback c (run c td.1.1 inputs) channel buffer
            = ([], Ok ()).
Proof.
  intros Hpub.
  assert (Hshape : routingMap st1 !! id0 = Some callback
                   /\ exists sub0 ack,
                        evs = [EvSubscribe sub0 responseChannel ack]).
  { revert Hpub. unfold publish, publish_catch.
    destruct (assignPacketId c draw partialPacket) as [packet|];
      [|discriminate].
    destruct (normalizePattern c (pattern partialPacket)) as [normalized|];
      [|discriminate].
    destruct (serialize c (PacketWithId_value packet)) as [sp|];
      [|discriminate].
    simpl. destruct (subClient st) as [sub0|]; [|discriminate].
    intros [= <- <- <- <-]. simpl. split; [apply lookup_insert_eq|eauto]. }
  destruct Hshape as [H1 H2]. split; [exact H1|]. split; [exact H2|].
  intros before sub Hsub td. subst td. unfold teardown. rewrite Hsub. simpl.
  assert (Hgone : delete id0 (routingMap before) !! id0 = None)
    by apply lookup_delete_eq.
  split_and!; try done.
  intros inputs channel buffer Hf Hc.
  apply (createResponseCallback_drops c _ channel buffer id0 Hc).
  by apply run_keeps_unregistered.
Qed.

(** The example call [a]: its teardown on the connected client, then a
    late response [{"id":"a","response":3,"isDisposed":true}]. *)
Lemma teardown_unregisters_witness :
  routingMap Examples.sent !! "a" = Some 7%nat
  /\ createResponseCallback Node.collaborators
       (teardown Node.collaborators Examples.sent "sum_res" "a").1.1
       "sum_res" (Examples.dq "{'id':'a','response':3,'isDisposed':true}")
     = ([], Ok ()).
Proof.
  destruct (teardown_unregisters Node.collaborators Examples.connected "a"
              Examples.sum 7%nat Examples.sent
              [EvSubscribe 1 "sum_res"
                 (SubscribeAck "sum" (PacketWithId_value
                    {| id := "a"; packet := Examples.sum |}))]
              "sum_res" "a") as (H1 & _ & H3).
  - vm_compute; reflexivity.
  - split; [exact H1|].
    destruct (H3 Examples.sent 1%nat) as (_ & _ & _ & H4);
      [reflexivity|].
    apply (H4 []); [constructor|].
    exists (JObj [("id", JStr "a"); ("response", JNum 3);
                  ("isDisposed", JBool true)]),
      (JObj [("id", JStr "a"); ("response", JNum 3);
             ("isDisposed", JBool true)]),
      JUndefined, (JNum 3), (JBool true).
    split_and!; vm_compute; reflexivity.
Defined.

(** After [close()] the teardown function does not remove the entry: the
    teardown of the example call [a], invoked on the closed client, raises
    on the read of [unsubscribe] and leaves the identifier registered; the
    client then connects again, and the response
    [{"id":"a","response":3,"isDisposed":true}], which arrives after the
    teardown, is delivered to the callback of the call. *)
Lemma teardown_on_closed_client_keeps_delivering :
  routingMap Examples.sent !! "a" = Some 7%nat
  /\ teardown Node.collaborators (close Examples.sent).1 "sum_res" "a" =
     ((close Examples.sent).1, [],
      Throw (TypeError_read Node.collaborators "unsubscribe"))
  /\ routingMap
       (teardown Node.collaborators (close Examples.sent).1 "sum_res"
          "a").1.1 !! "a" = Some 7%nat
  /\ createResponseCallback Node.collaborators
       (run Node.collaborators Examples.sent
          [Close; TornDown "sum_res" "a"; Connect; Ready 1 2; Ready 1 3])
       "sum_res" (Examples.dq "{'id':'a','response':3,'isDisposed':true}")
     = ([EvCallback 7
           (JObj [("err", JUndefined); ("response", JNum 3);
                  ("isDisposed", JBool true)])], Ok ()).
Proof. repeat split; vm_compute; reflexivity. Qed.

(** ** [connect] *)

Lemma handshake_history_mono c log x p hs :
  handshake_history c log p hs -> handshake_history c (log ++ [x]) p hs.
Proof.
  intros (H1 & H2 & H3 & H4). unfold handshake_history.
  rewrite fmap_app. split_and!.
  - intros H. apply elem_of_app. left. auto.
  - intros H. apply elem_of_app. left. auto.
  - exact H3.
  - intros e He. destruct (H4 e He) as [(opts & Ho & Hr) | Hr];
      [left|right; exact Hr].
    exists opts. split; [|exact Hr]. apply elem_of_app. by left.
Qed.

Lemma step_handshakes c st i :
  match i with
  | Connect | Retry _ _ | Ready _ _ => True
  | _ => handshakes (step c st i).1 = handshakes st
  end.
Proof.
  destruct i; try exact I;
    unfold step, close, publish, publish_catch, dispatchEvent, teardown,
      publish_ack; simpl; break_match; simpl; reflexivity.
Qed.

Lemma subject_error_lookup st s e p hs :
  handshakes (subject_error st s e) !! p = Some hs ->
  exists hs0,
    handshakes st !! p = Some hs0
    /\ (hs = hs0
        \/ (p = s /\ hs_state hs0 = Pending
            /\ hs_pub hs = hs_pub hs0 /\ hs_sub hs = hs_sub hs0
            /\ hs_pub_ready hs = hs_pub_ready hs0
            /\ hs_sub_ready hs = hs_sub_ready hs0
            /\ hs_state hs = Rejected e)).
Proof.
  unfold subject_error. simpl.
  destruct (decide (p = s)) as [-> | Hne].
  - rewrite list_lookup_alter_eq.
    destruct (handshakes st !! s) as [hs0|]; simpl; [|discriminate].
    intros [= <-]. exists hs0. split; [done|].
    unfold reject_pending. destruct (hs_state hs0) eqn:E; auto.
    right. by split_and!.
  - rewrite list_lookup_alter_ne by done. eauto.
Qed.

Lemma ready_lookup c st p0 h p hs :
  handshakes (ready c st p0 h).1 !! p = Some hs ->
  exists hs0,
    handshakes st !! p = Some hs0
    /\ (hs = hs0
        \/ (p = p0 /\ hs_state hs0 = Pending
            /\ hs_pub hs = hs_pub hs0 /\ hs_sub hs = hs_sub hs0
            /\ hs_pub_ready hs =
               hs_pub_ready hs0 || (h =? hs_pub hs0)%nat
            /\ hs_sub_ready hs =
               hs_sub_ready hs0 || (h =? hs_sub hs0)%nat
            /\ (hs_state hs = Pending
                \/ (hs_pub_ready hs = true /\ hs_sub_ready hs = true
                    /\ (hs_state hs = Resolved (JArr [JUndefined; JUndefined])
                        \/ hs_state hs = Rejected (TypeError_read c "on")))))).
Proof.
  unfold ready.
  destruct (handshakes st !! p0) as [hs0|] eqn:E0; [|eauto].
  destruct (hs_state hs0) eqn:Es; [|eauto..].
  set (pr := hs_pub_ready hs0 || (h =? hs_pub hs0)%nat).
  set (sr := hs_sub_ready hs0 || (h =? hs_sub hs0)%nat).
  assert (Hlt : (p0 < length (handshakes st))%nat)
    by (by eapply lookup_lt_Some).
  destruct (decide (p = p0)) as [-> | Hne].
  - destruct (pr && sr) eqn:Eb; [destruct (subClient st)|]; simpl;
      rewrite list_lookup_insert_eq by done; intros [= <-];
      exists hs0; (split; [done|]); right; simpl;
      try apply andb_true_iff in Eb as [? ?]; split_and!; auto.
  - destruct (pr && sr); [destruct (subClient st)|]; simpl;
      rewrite list_lookup_insert_ne by done; eauto.
Qed.

Lemma elem_of_log_last (log : list (input * list event)) i evs :
  i ∈ (log ++ [(i, evs)]).*1.
Proof.
  rewrite fmap_app. apply elem_of_app. right. apply list_elem_of_here.
Qed.

Lemma reachable_handshakes c o log st :
  reachable c o log st ->
  forall p hs, handshakes st !! p = Some hs -> handshake_history c log p hs.
Proof.
  induction 1 as [|log st i Hr IH He]; intros p hs Hl.
  { discriminate. }
  pose proof (elem_of_log_last log i (step c st i).2) as Hlast.
  pose proof (step_handshakes c st i) as Hsame.
  destruct i;
    try (rewrite Hsame in Hl; apply handshake_history_mono; by apply IH).
  - (* connect *)
    revert Hl. unfold step, connect.
    destruct (pubClient st), (subClient st); simpl;
      try (intros Hl; apply handshake_history_mono; by apply IH);
      intros Hl; apply lookup_app_Some in Hl as [Hl | [_ Hl]];
      try (apply handshake_history_mono; by apply IH);
      apply list_lookup_singleton_Some in Hl as [_ <-];
      (split_and!; simpl; intros; discriminate).
  - (* the retry strategy *)
    assert (Hcase : handshakes (step c st (Retry error_s opts)).1 =
                    handshakes st
                    \/ (is_refused c (error opts) = true
                        /\ handshakes (step c st (Retry error_s opts)).1 =
                           handshakes (subject_error st error_s (error opts)))).
    { unfold step, createRetryStrategy.
      destruct (is_refused c (error opts)); simpl; break_match; auto. }
    destruct Hcase as [Hc | [Href Hc]]; rewrite Hc in Hl.
    { apply handshake_history_mono; by apply IH. }
    apply subject_error_lookup in Hl as (hs0 & H0 & Hcases).
    specialize (IH _ _ H0).
    apply (handshake_history_mono _ _
             (Retry error_s opts, (step c st (Retry error_s opts)).2)) in IH.
    destruct Hcases as [-> | (-> & Hpend & Hp & Hs & Hpr & Hsr & Hst)];
      [exact IH|].
    destruct IH as (H1 & H2 & H3 & H4).
    unfold handshake_history. rewrite Hp, Hs, Hpr, Hsr, Hst.
    split_and!; auto; [intros v; discriminate|].
    intros e [= <-]. left. exists opts. split; [exact Hlast|].
    split; [done|]. by apply is_refused_code.
  - (* a handle signals ready *)
    apply ready_lookup in Hl as (hs0 & H0 & Hcases).
    specialize (IH _ _ H0).
    apply (handshake_history_mono _ _
             (Ready p0 h, (step c st (Ready p0 h)).2)) in IH.
    destruct Hcases as [-> | (-> & Hpend & Hp & Hs & Hpr & Hsr & Hst)];
      [exact IH|].
    destruct IH as (H1 & H2 & H3 & H4).
    unfold handshake_history. rewrite Hp, Hs, Hpr, Hsr.
    split_and!.
    + intros Hb. apply orb_true_iff in Hb as [Hb | Hb]; [auto|].
      apply Nat.eqb_eq in Hb. by subst.
    + intros Hb. apply orb_true_iff in Hb as [Hb | Hb]; [auto|].
      apply Nat.eqb_eq in Hb. by subst.
    + intros v Hv. rewrite <- Hpr, <- Hsr.
      destruct Hst as [Hst | (? & ? & _)]; [congruence|done].
    + intros e Hv. right. rewrite <- Hpr, <- Hsr.
      destruct Hst as [Hst | (? & ? & [Hst | Hst])]; try congruence.
      split_and!; congruence.
Qed.

Lemma step_keeps_connection c st i :
  i <> Close ->
  is_Some (pubClient st) -> is_Some (subClient st) ->
  pubClient (step c st i).1 = pubClient st
  /\ subClient (step c st i).1 = subClient st
  /\ connection (step c st i).1 = connection st.
Proof.
  intros Hi [pub Hp] [sub Hs].
  destruct i; try done;
    unfold step, connect, publish, publish_catch, dispatchEvent,
      createRetryStrategy, ready, teardown, publish_ack, subject_error;
    rewrite ?Hp, ?Hs; simpl; break_match; simpl;
    try done; split_and!; congruence.
Qed.

Lemma run_keeps_connection c inputs : forall st,
  Close ∉ inputs ->
  is_Some (pubClient st) -> is_Some (subClient st) ->
  pubClient (run c st inputs) = pubClient st
  /\ subClient (run c st inputs) = subClient st
  /\ connection (run c st inputs) = connection st.
Proof.
  induction inputs as [|i rest IH]; intros st Hn Hp Hs; simpl; [done|].
  assert (Hi : i <> Close) by (intros ->; apply Hn; left).
  destruct (step_keeps_connection c st i Hi Hp Hs) as (E1 & E2 & E3).
  destruct (IH (step c st i).1) as (F1 & F2 & F3).
  - intros H. apply Hn. by right.
  - by rewrite E1.
  - by rewrite E2.
  - rewrite F1, F2, F3. done.
Qed.

Lemma connect_established c st :
  is_Some (pubClient st) -> is_Some (subClient st) ->
  connect c st = (st, [], connection st).
Proof. intros [pub Hp] [sub Hs]. unfold connect. by rewrite Hp, Hs. Qed.

Lemma connect_creates c st :
  pubClient st = None \/ subClient st = None ->
  connect c st =
  ({| options := options st; url := url st;
      pubClient := Some (clients st); subClient := Some (S (clients st));
      connection := Some (length (handshakes st));
      isExplicitlyTerminated := isExplicitlyTerminated st;
      routingMap := routingMap st;
      handshakes := handshakes st ++
        [{| hs_pub := clients st; hs_sub := S (clients st);
            hs_pub_ready := false; hs_sub_ready := false;
            hs_state := Pending |}];
      emitted := emitted st;
      clients := S (S (clients st)) |},
   [EvCreateClient (clients st) (url st)
      (RetryStrategy (length (handshakes st)));
    EvCreateClient (S (clients st)) (url st)
      (RetryStrategy (length (handshakes st)));
    EvOn (clients st) (ERROR_EVENT c) ErrorListener;
    EvOn (S (clients st)) (ERROR_EVENT c) ErrorListener;
    EvOn (clients st) (CONNECT_EVENT c)
      (ReadyListener (length (handshakes st)));
    EvOn (S (clients st)) (CONNECT_EVENT c)
      (ReadyListener (length (handshakes st)))],
   Some (length (handshakes st))).
Proof.
  unfold connect. intros [H | H]; rewrite H; [done|].
  by destruct (pubClient st).
Qed.

Lemma ready_pending c st p hs h :
  handshakes st !! p = Some hs -> hs_state hs = Pending ->
  ready c st p h =
  (with_handshakes st
     (<[p := {| hs_pub := hs_pub hs; hs_sub := hs_sub hs;
                hs_pub_ready := hs_pub_ready hs || (h =? hs_pub hs)%nat;
                hs_sub_ready := hs_sub_ready hs || (h =? hs_sub hs)%nat;
                hs_state :=
                  if (hs_pub_ready hs || (h =? hs_pub hs)%nat)
                     && (hs_sub_ready hs || (h =? hs_sub hs)%nat)
                  then match subClient st with
                       | Some _ => Resolved (JArr [JUndefined; JUndefined])
                       | None => Rejected (TypeError_read c "on")
                       end
                  else Pending |}]> (handshakes st)),
   if (hs_pub_ready hs || (h =? hs_pub hs)%nat)
      && (hs_sub_ready hs || (h =? hs_sub hs)%nat)
   then match subClient st with
        | Some s => [EvOn s (MESSAGE_EVENT c) ResponseCallback]
        | None => []
        end
   else []).
Proof.
  intros H1 H2. unfold ready. rewrite H1, H2.
  destruct ((hs_pub_ready hs || (h =? hs_pub hs)%nat)
            && (hs_sub_ready hs || (h =? hs_sub hs)%nat));
    [destruct (subClient st)|]; reflexivity.
Qed.

(** A pending attempt none of whose handles has signalled yet: the first
    [CONNECT_EVENT] leaves the promise pending and installs nothing, the
    [CONNECT_EVENT] of the other handle resolves it and installs the
    message listener on the subscriber handle the instance holds. *)
Lemma handshake_resolves c st p pub sub s first second :
  handshakes st !! p =
    Some {| hs_pub := pub; hs_sub := sub; hs_pub_ready := false;
            hs_sub_ready := false; hs_state := Pending |} ->
  subClient st = Some s -> pub <> sub ->
  (first = pub /\ second = sub) \/ (first = sub /\ second = pub) ->
  (step c st (Ready p first)).2 = []
  /\ (exists hs1,
        handshakes (step c st (Ready p first)).1 !! p = Some hs1
        /\ hs_state hs1 = Pending)
  /\ (step c (step c st (Ready p first)).1 (Ready p second)).2 =
     [EvOn s (MESSAGE_EVENT c) ResponseCallback]
  /\ exists hs2,
       handshakes (step c (step c st (Ready p first)).1 (Ready p second)).1
       !! p = Some hs2
       /\ hs_state hs2 = Resolved (JArr [JUndefined; JUndefined]).
Proof.
  intros Hl Hs Hne Horder.
  assert (Hlt : (p < length (handshakes st))%nat)
    by (by eapply lookup_lt_Some).
  assert (E1 : (pub =? sub)%nat = false) by (by apply Nat.eqb_neq).
  assert (E2 : (sub =? pub)%nat = false)
    by (apply Nat.eqb_neq; congruence).
  set (hs0 := {| hs_pub := pub; hs_sub := sub; hs_pub_ready := false;
                 hs_sub_ready := false; hs_state := Pending |}) in *.
  assert (Hfirst : exists hs1,
            step c st (Ready p first) =
              (with_handshakes st (<[p := hs1]> (handshakes st)), [])
            /\ hs_pub hs1 = pub /\ hs_sub hs1 = sub
            /\ hs_state hs1 = Pending
            /\ hs_pub_ready hs1 || (second =? pub)%nat = true
            /\ hs_sub_ready hs1 || (second =? sub)%nat = true).
  { simpl. rewrite (ready_pending c st p hs0 first Hl eq_refl). simpl.
    destruct Horder as [[-> ->] | [-> ->]];
      rewrite ?Nat.eqb_refl, ?E1, ?E2; simpl; eexists;
      (split; [reflexivity|]); simpl;
      rewrite ?Nat.eqb_refl, ?E1, ?E2; done. }
  destruct Hfirst as (hs1 & -> & Hp1 & Hs1 & Hst1 & Hpr & Hsr).
  cbn [fst snd].
  assert (Hl1 : handshakes
                  (with_handshakes st (<[p := hs1]> (handshakes st))) !! p
                = Some hs1)
    by (simpl; by rewrite list_lookup_insert_eq).
  split; [done|]. split; [eauto|].
  simpl step. rewrite (ready_pending c _ p hs1 second Hl1 Hst1).
  rewrite Hp1, Hs1, Hpr, Hsr. simpl. rewrite Hs. split; [done|].
  rewrite list_lookup_insert_eq by (by rewrite length_insert). eauto.
Qed.

(** C6. [connect()] is idempotent on an established connection: when both
    handles exist it returns the memoized promise at once, creates no handle
    and changes nothing; otherwise it creates exactly one publisher handle
    and one subscriber handle and returns a new, pending promise.  Callers
    that follow, as long as [close()] is not among what happens in between,
    get that same promise and create nothing.  The new promise resolves
    once both handles have signalled [CONNECT_EVENT], in either order, and
    not on the first of the two signals; resolving installs the message
    listener on the subscriber handle; and a refused connection that the
    retry strategy observes rejects it.  Over all histories, a promise of
    [connect] is resolved only after both of its handles have signalled
    [CONNECT_EVENT], and rejected only after an error was observed. *)
Theorem connect_idempotent c o log st :
  reachable c o log st ->
  let res := connect c st in
  (is_Some (pubClient st) -> is_Some (subClient st) ->
   res = (st, [], connection st))
  /\ (pubClient st = None \/ subClient st = None ->
      exists pub sub p,
        pub <> sub
        /\ filter (fun ev => is_createClient ev = true) res.1.2 =
           [EvCreateClient pub (url st) (RetryStrategy p);
            EvCreateClient sub (url st) (RetryStrategy p)]
        /\ pubClient res.1.1 = Some pub /\ subClient res.1.1 = Some sub
        /\ res.2 = Some p /\ connection res.1.1 = Some p
        /\ handshakes st !! p = None
        /\ handshakes res.1.1 !! p =
           Some {| hs_pub := pub; hs_sub := sub; hs_pub_ready := false;
                   hs_sub_ready := false; hs_state := Pending |}
        /\ (forall first second,
              (first = pub /\ second = sub)
              \/ (first = sub /\ second = pub) ->
              (step c res.1.1 (Ready p first)).2 = []
              /\ (exists hs1,
                    handshakes (step c res.1.1 (Ready p first)).1 !! p
                    = Some hs1
                    /\ hs_state hs1 = Pending)
              /\ (step c (step c res.1.1 (Ready p first)).1
                    (Ready p second)).2 =
                 [EvOn sub (MESSAGE_EVENT c) ResponseCallback]
              /\ exists hs2,
                   handshakes
                     (step c (step c res.1.1 (Ready p first)).1
                        (Ready p second)).1 !! p = Some hs2
                   /\ hs_state hs2 = Resolved (JArr [JUndefined; JUndefined]))
        /\ (forall opts,
              code_of (error opts) = JStr (ECONNREFUSED c) ->
              exists hs,
                handshakes (step c res.1.1 (Retry p opts)).1 !! p = Some hs
                /\ hs_state hs = Rejected (error opts)))
  /\ (forall inputs,
        Close ∉ inputs ->
        connect c (run c res.1.1 inputs) = (run c res.1.1 inputs, [], res.2))
  /\ (forall p hs v,
        handshakes st !! p = Some hs -> hs_state hs = Resolved v ->
        Ready p (hs_pub hs) ∈ log.*1 /\ Ready p (hs_sub hs) ∈ log.*1)
  /\ (forall p hs e,
        handshakes st !! p = Some hs -> hs_state hs = Rejected e ->
        (exists opts,
           Retry p opts ∈ log.*1 /\ error opts = e
           /\ code_of e = JStr (ECONNREFUSED c))
        \/ (Ready p (hs_pub hs) ∈ log.*1 /\ Ready p (hs_sub hs) ∈ log.*1
            /\ e = TypeError_read c "on")).
Proof.
  intros Hr res.
  assert (Hboth : is_Some (pubClient res.1.1) /\ is_Some (subClient res.1.1)
                  /\ connection res.1.1 = res.2).
  { subst res. unfold connect.
    destruct (pubClient st) eqn:Ep, (subClient st) eqn:Es; simpl;
      rewrite ?Ep, ?Es; eauto. }
  destruct Hboth as (Bp & Bs & Bc).
  split_and!.
  - apply connect_established.
  - intros Hnone. subst res. rewrite (connect_creates c st Hnone).
    set (st1 := (_, _, _).1.1).
    assert (Hnew : handshakes st1 !! length (handshakes st) =
                   Some {| hs_pub := clients st; hs_sub := S (clients st);
                           hs_pub_ready := false; hs_sub_ready := false;
                           hs_state := Pending |}).
    { subst st1. simpl. rewrite lookup_app_r by lia.
      by rewrite Nat.sub_diag. }
    exists (clients st), (S (clients st)), (length (handshakes st)).
    split_and!; try done.
    + by apply lookup_ge_None_2.
    + intros first second Horder.
      apply (handshake_resolves c st1 _ (clients st) (S (clients st)));
        try done; lia.
    + intros opts Hcode. apply is_refused_code in Hcode.
      exists {| hs_pub := clients st; hs_sub := S (clients st);
                hs_pub_ready := false; hs_sub_ready := false;
                hs_state := Rejected (error opts) |}.
      split; [|done].
      assert (Hstep : handshakes (step c st1 (Retry (length (handshakes st))
                                                opts)).1 =
                      alter (reject_pending (error opts))
                        (length (handshakes st)) (handshakes st1)).
      { unfold step, createRetryStrategy, subject_error. rewrite Hcode.
        simpl. break_match; reflexivity. }
      rewrite Hstep, list_lookup_alter_eq, Hnew. reflexivity.
  - intros inputs Hn.
    destruct (run_keeps_connection c inputs res.1.1 Hn Bp Bs)
      as (E1 & E2 & E3).
    rewrite connect_established; rewrite ?E1, ?E2; try done.
    by rewrite E3, Bc.
  - intros p hs v Hl Hv.
    destruct (reachable_handshakes c o log st Hr p hs Hl)
      as (H1 & H2 & H3 & _).
    destruct (H3 v Hv). auto.
  - intros p hs e Hl He.
    destruct (reachable_handshakes c o log st Hr p hs Hl)
      as (H1 & H2 & _ & H4).
    destruct (H4 e He) as [? | (? & ? & ?)]; auto.
Qed.

(** The example client: its first [connect()] makes the promise 0 for the
    handles 0 and 1; when both have signalled [CONNECT_EVENT] the promise is
    resolved and the message listener is on handle 1; and a [connect()]
    after that answers with the same promise. *)
Lemma connect_idempotent_witness :
  (step Node.collaborators
     (step Node.collaborators
        (connect Node.collaborators Examples.fresh).1.1 (Ready 0 0)).1
     (Ready 0 1)).2 = [EvOn 1 "message" ResponseCallback]
  /\ (exists hs,
        handshakes Examples.connected !! 0%nat = Some hs
        /\ hs_state hs = Resolved (JArr [JUndefined; JUndefined]))
  /\ connect Node.collaborators Examples.connected =
     (Examples.connected, [], Some 0%nat).
Proof.
  pose proof (reachable_new Node.collaborators Examples.opts_3_50) as R0.
  pose proof (reachable_step _ _ _ _ Connect R0 I) as R1.
  pose proof (reachable_step _ _ _ _ (Ready 0 0) R1 I) as R2.
  pose proof (reachable_step _ _ _ _ (Ready 0 1) R2 I) as R3.
  destruct (connect_idempotent _ _ _ _ R0) as (_ & Hnew & _).
  destruct (Hnew (or_introl eq_refl))
    as (pub & sub & p & _ & _ & Hp & Hs & Hres & _ & _ & _ & Hready & _).
  injection Hp as <-. injection Hs as <-. injection Hres as <-.
  destruct (Hready 0%nat 1%nat (or_introl (conj eq_refl eq_refl)))
    as (_ & _ & Hev & Hst).
  destruct (connect_idempotent _ _ _ _ R3) as (H & _).
  split; [exact Hev|]. split; [exact Hst|].
  apply H; vm_compute; eauto.
Defined.

(** ** Subscribe, then publish *)

Ltac in_events H :=
  repeat (apply elem_of_cons in H as [H | H]; [try discriminate|]);
  try (by apply elem_of_nil in H).

(** The only call of [publish] without an acknowledgment callback is the
    one of line 161, inside the acknowledgment callback of [subscribe]. *)
Lemma step_request_publish c st i h channel text :
  EvPublish h channel text None ∈ (step c st i).2 ->
  exists pattern serializedPacket,
    i = SubscribeAcked pattern serializedPacket None
    /\ channel = getAckPatternName pattern
    /\ JSON_stringify c serializedPacket = Ok text
    /\ (step c st i).2 = [EvPublish h channel text None].
Proof.
  destruct i; unfold step, connect, close, publish, publish_catch,
    dispatchEvent, createRetryStrategy, ready, teardown, publish_ack,
    createResponseCallback, subscribe_ack; simpl; break_match; simpl;
    intros H; in_events H.
  injection H as -> -> ->. eauto 10.
Qed.

Lemma step_subscribe c st i h channel pattern serializedPacket :
  EvSubscribe h channel (SubscribeAck pattern serializedPacket)
    ∈ (step c st i).2 ->
  exists draw partialPacket callback,
    i = Publish draw partialPacket callback
    /\ channel = getResPatternName pattern
    /\ (step c st i).2 =
       [EvSubscribe h channel (SubscribeAck pattern serializedPacket)].
Proof.
  destruct i; unfold step, connect, close, publish, publish_catch,
    dispatchEvent, createRetryStrategy, ready, teardown, publish_ack,
    createResponseCallback, subscribe_ack; simpl; break_match; simpl;
    intros H; in_events H.
  injection H as -> -> -> ->. eauto 10.
Qed.

Lemma publish_does_not_publish c st draw partialPacket callback
    h channel text ack :
  EvPublish h channel text ack
    ∉ (step c st (Publish draw partialPacket callback)).2.
Proof.
  unfold step, publish, publish_catch; simpl; break_match; simpl;
    intros H; in_events H.
Qed.

Lemma reachable_log_steps c o log st :
  reachable c o log st ->
  forall n i evs,
    log !! n = Some (i, evs) -> exists st', evs = (step c st' i).2.
Proof.
  induction 1 as [|log st i Hr IH He]; intros n j evs Hl; [discriminate|].
  apply lookup_app_Some in Hl as [Hl | [_ Hl]]; [eauto|].
  apply list_lookup_singleton_Some in Hl as [_ [= <- <-]]. eauto.
Qed.

(** In every history of an instance: a [send] does not publish, and a
    packet is published on an ack channel only by the acknowledgment
    callback of a [subscribe] that a [send] issued earlier on the response
    channel of the same pattern, run without error; what it publishes is
    the text of the serialized packet that [send] captured. *)
Lemma request_publish_follows_subscribe c o log st :
  reachable c o log st ->
  (forall n draw partialPacket callback evs,
     log !! n = Some (Publish draw partialPacket callback, evs) ->
     forall h channel text ack, EvPublish h channel text ack ∉ evs)
  /\ (forall n i evs h channel text,
        log !! n = Some (i, evs) ->
        EvPublish h channel text None ∈ evs ->
        exists pattern serializedPacket,
          i = SubscribeAcked pattern serializedPacket None
          /\ channel = getAckPatternName pattern
          /\ JSON_stringify c serializedPacket = Ok text
          /\ evs = [EvPublish h channel text None]
          /\ exists m draw partialPacket callback sub,
               (m < n)%nat
               /\ log !! m =
                  Some (Publish draw partialPacket callback,
                        [EvSubscribe sub (getResPatternName pattern)
                           (SubscribeAck pattern serializedPacket)])).
Proof.
  intros Hr. split.
  - intros n draw partialPacket callback evs Hl h channel text ack.
    destruct (reachable_log_steps c o log st Hr _ _ _ Hl) as [st' ->].
    apply publish_does_not_publish.
  - induction Hr as [|log st i Hr IH He];
      intros n j evs h channel text Hl Hin; [discriminate|].
    apply lookup_app_Some in Hl as [Hl | [Hlen Hl]].
    { destruct (IH _ _ _ _ _ _ Hl Hin)
        as (pattern & sp & -> & -> & Hj & -> & m & draw & pp & cb & sub
            & Hlt & Hm).
      exists pattern, sp. split_and!; try done.
      exists m, draw, pp, cb, sub. split; [done|].
      by apply lookup_app_l_Some. }
    apply list_lookup_singleton_Some in Hl as [Hn [= <- <-]].
    destruct (step_request_publish _ _ _ _ _ _ Hin)
      as (pattern & sp & -> & -> & Hj & Hevs).
    exists pattern, sp. split_and!; try done.
    destruct He as (m & j & evs & sub & ch & Hm & Hsub).
    destruct (reachable_log_steps c o log st Hr _ _ _ Hm) as [st' ->].
    destruct (step_subscribe _ _ _ _ _ _ _ Hsub)
      as (draw & pp & cb & -> & -> & Hevs').
    exists m, draw, pp, cb, sub. split.
    + apply lookup_lt_Some in Hm. lia.
    + apply lookup_app_l_Some. by rewrite Hm, Hevs'.
Qed.

(** C1. A [send] that reaches the network (it returns its teardown
    function) has built, normalized and serialized the packet, registered
    the callback under the identifier of the packet, and done one thing on
    the network: subscribe to the response channel of the pattern, with an
    acknowledgment callback that holds the serialized packet.  It has
    published nothing.  That callback, run without error, publishes the
    text of the serialized packet on the ack channel of the pattern; run
    with an error it publishes nothing and leaves the instance as it is, so
    the callback of the call is still registered under the identifier.
    And in every history of an instance a packet is published on an ack
    channel by such an acknowledgment callback only, run without error,
    after the [send] that subscribed. *)
Theorem subscribe_then_publish c st draw partialPacket callback st1 evs td :
  publish c st draw partialPacket callback = (st1, evs, Some td) ->
  exists packet normalized serializedPacket sub,
    assignPacketId c draw partialPacket = Ok packet
    /\ normalizePattern c (pattern partialPacket) = Ok normalized
    /\ serialize c (PacketWithId_value packet) = Ok serializedPacket
    /\ subClient st = Some sub
    /\ td = Teardown (getResPatternName normalized) (id packet)
    /\ evs = [EvSubscribe sub (getResPatternName normalized)
                (SubscribeAck normalized serializedPacket)]
    /\ (forall h channel text ack, EvPublish h channel text ack ∉ evs)
    /\ routingMap st1 !! id packet = Some callback
    /\ (forall later pub text,
          pubClient later = Some pub ->
          JSON_stringify c serializedPacket = Ok text ->
          step c later (SubscribeAcked normalized serializedPacket None) =
          (later, [EvPublish pub (getAckPatternName normalized) text None]))
    /\ (forall e,
          step c st1 (SubscribeAcked normalized serializedPacket (Some e))
          = (st1, [])
          /\ routingMap
               (step c st1
                  (SubscribeAcked normalized serializedPacket (Some e))).1
             !! id packet = Some callback)
    /\ (forall later e,
          step c later (SubscribeAcked normalized serializedPacket (Some e))
          = (later, []))
    /\ forall o log' st',
         reachable c o log' st' ->
         forall n i evs' h channel text,
           log' !! n = Some (i, evs') ->
           EvPublish h channel text None ∈ evs' ->
           exists pattern' serializedPacket',
             i = SubscribeAcked pattern' serializedPacket' None
             /\ channel = getAckPatternName pattern'
             /\ JSON_stringify c serializedPacket' = Ok text
             /\ exists m draw' partialPacket' callback' sub',
                  (m < n)%nat
                  /\ log' !! m =
                     Some (Publish draw' partialPacket' callback',
                           [EvSubscribe sub' (getResPatternName pattern')
                              (SubscribeAck pattern' serializedPacket')]).
Proof.
  unfold publish, publish_catch.
  destruct (assignPacketId c draw partialPacket) as [packet|] eqn:Ea;
    [|discriminate].
  destruct (normalizePattern c (pattern partialPacket)) as [normalized|]
    eqn:En; [|discriminate].
  destruct (serialize c (PacketWithId_value packet)) as [sp|] eqn:Es;
    [|discriminate].
  simpl. destruct (subClient st) as [sub|] eqn:Esub; [|discriminate].
  intros [= <- <- <-].
  exists packet, normalized, sp, sub. split_and!; try done.
  - intros h channel text ack H. in_events H.
  - simpl. apply lookup_insert_eq.
  - intros later pub text Hp Hj. unfold step, subscribe_ack.
    by rewrite Hp, Hj.
  - intros e. split; [done|]. simpl. apply lookup_insert_eq.
  - intros o log' st' Hr n i evs' h channel text Hl Hin.
    destruct (proj2 (request_publish_follows_subscribe c o log' st' Hr)
                _ _ _ _ _ _ Hl Hin)
      as (pattern' & sp' & Hi & Hc & Hj & _ & Hm).
    exists pattern', sp'. done.
Qed.

(** The example call [a]: [connect()], both handles ready, [send], and the
    acknowledgment of its [subscribe] without error. *)
Lemma subscribe_then_publish_witness :
  routingMap Examples.sent !! "a" = Some 7%nat
  /\ step Node.collaborators Examples.sent
       (SubscribeAcked "sum"
          (PacketWithId_value {| id := "a"; packet := Examples.sum |}) None)
     = (Examples.sent,
        [EvPublish 0 "sum_ack"
           (JStr (Examples.dq "{'pattern':'sum','data':[1,2],'id':'a'}"))
           None])
  /\ exists log st,
       reachable Node.collaborators Examples.opts_3_50 log st
       /\ log !! 4%nat =
          Some (SubscribeAcked "sum"
                  (PacketWithId_value
                     {| id := "a"; packet := Examples.sum |}) None,
                [EvPublish 0 "sum_ack"
                   (JStr (Examples.dq
                      "{'pattern':'sum','data':[1,2],'id':'a'}")) None])
       /\ exists m draw partialPacket callback sub,
            (m < 4)%nat
            /\ log !! m =
               Some (Publish draw partialPacket callback,
                     [EvSubscribe sub "sum_res"
                        (SubscribeAck "sum"
                           (PacketWithId_value
                              {| id := "a"; packet := Examples.sum |}))]).
Proof.
  destruct (subscribe_then_publish Node.collaborators Examples.connected
              "a" Examples.sum 7%nat Examples.sent
              [EvSubscribe 1 "sum_res"
                 (SubscribeAck "sum" (PacketWithId_value
                    {| id := "a"; packet := Examples.sum |}))]
              (Teardown "sum_res" "a"))
    as (pk & normalized & sp & sub & Ha & Hn & Hs & _ & _ & _ & _ & Hreg
        & Hack & _ & _ & Hlog).
  { vm_compute; reflexivity. }
  injection Ha as <-. injection Hn as <-. injection Hs as <-.
  split; [exact Hreg|].
  split.
  { apply (Hack Examples.sent 0%nat); [reflexivity|].
    vm_compute; reflexivity. }
  pose proof (reachable_new Node.collaborators Examples.opts_3_50) as R0.
  pose proof (reachable_step _ _ _ _ Connect R0 I) as R1.
  pose proof (reachable_step _ _ _ _ (Ready 0 0) R1 I) as R2.
  pose proof (reachable_step _ _ _ _ (Ready 0 1) R2 I) as R3.
  pose proof (reachable_step _ _ _ _ (Publish "a" Examples.sum 7) R3 I) as R4.
  eassert (R5 : reachable _ _ _ _).
  { apply (reachable_step _ _ _ _
             (SubscribeAcked "sum"
                (PacketWithId_value {| id := "a"; packet := Examples.sum |})
                None) R4).
    exists 3%nat, (Publish "a" Examples.sum 7),
      [EvSubscribe 1 "sum_res"
         (SubscribeAck "sum"
            (PacketWithId_value {| id := "a"; packet := Examples.sum |}))],
      1%nat, "sum_res".
    split; [vm_compute; reflexivity | apply list_elem_of_here]. }
  eexists _, _. split; [exact R5|].
  split; [vm_compute; reflexivity|].
  destruct (Hlog _ _ _ R5 4%nat _ _ 0%nat "sum_ack"
              (JStr (Examples.dq "{'pattern':'sum','data':[1,2],'id':'a'}"))
              ltac:(vm_compute; reflexivity)
              ltac:(vm_compute; apply list_elem_of_here))
    as (pattern' & sp' & Hi & _ & _ & m & draw & pp & cb & sub' & Hlt & Hm).
  injection Hi as <- <-.
  exists m, draw, pp, cb, sub'. split; [exact Hlt | exact Hm].
Defined.

(** ** A client without handles

    Before the first [connect()] and after [close()] both handles are
    absent, and every read of a method on them raises. *)

(** [publish] has already stored the callback when the read of [subscribe]
    raises inside its [try]: the entry stays, the callback gets the
    [TypeError], and no teardown function is returned. *)
Lemma publish_without_subscriber c st draw partialPacket callback packet
    normalized serializedPacket :
  assignPacketId c draw partialPacket = Ok packet ->
  normalizePattern c (pattern partialPacket) = Ok normalized ->
  serialize c (PacketWithId_value packet) = Ok serializedPacket ->
  subClient st = None ->
  publish c st draw partialPacket callback =
  (with_routingMap st (<[id packet := callback]> (routingMap st)),
   [EvCallback callback (JObj [("err", TypeError_read c "subscribe")])],
   None).
Proof.
  intros Ha Hn Hs Hsub. unfold publish, publish_catch.
  rewrite Ha, Hn, Hs. simpl. by rewrite Hsub.
Qed.

(** The teardown function raises on the read of [unsubscribe], before it
    reaches the [delete]: the routing table keeps the entry. *)
Lemma teardown_without_subscriber c st responseChannel id0 :
  subClient st = None ->
  teardown c st responseChannel id0 =
  (st, [], Throw (TypeError_read c "unsubscribe")).
Proof. intros H. unfold teardown. by rewrite H. Qed.

(** [dispatchEvent] returns a promise that is already rejected. *)
Lemma dispatchEvent_without_publisher c st packet normalized
    serializedPacket :
  normalizePattern c (pattern packet) = Ok normalized ->
  serialize c (ReadPacket_value packet) = Ok serializedPacket ->
  pubClient st = None ->
  dispatchEvent c st packet =
  (with_emitted st (emitted st ++ [Rejected (TypeError_read c "publish")]),
   [], Ok (length (emitted st))).
Proof.
  intros Hn Hs Hp. unfold dispatchEvent. by rewrite Hn, Hs, Hp.
Qed.

(** * Further properties of the class *)

(** ** Channel names *)

Lemma list_ascii_of_string_append (s t : string) :
  String.list_ascii_of_string (s +:+ t) =
  String.list_ascii_of_string s ++ String.list_ascii_of_string t.
Proof. induction s as [|a s IH]; simpl; [done|]. by rewrite IH. Qed.

Lemma append_suffix_inj (s1 s2 t1 t2 : string) :
  String.length t1 = String.length t2 ->
  s1 +:+ t1 = s2 +:+ t2 -> s1 = s2 /\ t1 = t2.
Proof.
  intros Hlen Heq.
  apply (f_equal String.list_ascii_of_string) in Heq.
  rewrite !list_ascii_of_string_append in Heq.
  apply app_inj_2 in Heq as [H1 H2].
  - split.
    + rewrite <- (String.string_of_list_ascii_of_string s1),
        <- (String.string_of_list_ascii_of_string s2). by rewrite H1.
    + rewrite <- (String.string_of_list_ascii_of_string t1),
        <- (String.string_of_list_ascii_of_string t2). by rewrite H2.
  - clear -Hlen. revert t2 Hlen.
    induction t1 as [|a t1 IH]; intros [|b t2] Hlen; simpl in *;
      try discriminate; [done|]. f_equal. apply IH. by injection Hlen.
Qed.

(** X1. Channel naming is collision free: two patterns with the same ack
    channel, or with the same response channel, are the same pattern, and
    no ack channel is the response channel of any pattern. *)
Theorem channel_names_do_not_collide (p q : string) :
  (getAckPatternName p = getAckPatternName q -> p = q)
  /\ (getResPatternName p = getResPatternName q -> p = q)
  /\ getAckPatternName p <> getResPatternName q.
Proof.
  unfold getAckPatternName, getResPatternName. split_and!.
  - intros H. by apply append_suffix_inj in H as [? _].
  - intros H. by apply append_suffix_inj in H as [? _].
  - intros H. apply append_suffix_inj in H as [_ H]; [discriminate|done].
Qed.

(** ** [close] *)

(** X2. [close()] is safe on a client that was never connected, where it
    quits nothing, and idempotent: a second [close()] quits nothing and
    changes nothing.  It releases both handles and quits each handle it
    held once, and it leaves the routing table and the memoized connection
    promise as they are. *)
Theorem close_idempotent st :
  close (close st).1 = ((close st).1, [])
  /\ (pubClient st = None -> subClient st = None -> (close st).2 = [])
  /\ (forall pub sub,
        pubClient st = Some pub -> subClient st = Some sub ->
        (close st).2 = [EvQuit pub; EvQuit sub])
  /\ pubClient (close st).1 = None
  /\ subClient (close st).1 = None
  /\ routingMap (close st).1 = routingMap st
  /\ connection (close st).1 = connection st.
Proof.
  unfold close. simpl. split_and!; try done.
  - by intros -> ->.
  - by intros pub sub -> ->.
Qed.

(** ** More on the retry strategy *)

(** X3. The decision of the retry strategy does not depend on the last
    error: a refused connection is put on the error subject, and the
    strategy then answers exactly as it would without any error, so a
    refusal alone never stops the retries.  The call changes neither the
    handles, nor the termination flag, nor the routing table. *)
Theorem createRetryStrategy_ignores_error c st opts e error_s :
  let res := createRetryStrategy c st opts error_s in
  res.2 =
    (createRetryStrategy c st {| error := e; attempt := attempt opts |}
       error_s).2
  /\ pubClient res.1.1 = pubClient st
  /\ subClient res.1.1 = subClient st
  /\ isExplicitlyTerminated res.1.1 = isExplicitlyTerminated st
  /\ routingMap res.1.1 = routingMap st.
Proof.
  intros res. subst res. rewrite !createRetryStrategy_result.
  split; [done|].
  unfold createRetryStrategy, subject_error.
  destruct (is_refused c (error opts)); simpl; break_match; done.
Qed.





(** X5. [retryAttempts = 0] reads as not configured: the test is on
    truthiness, so for every attempt number, the first included, the
    strategy answers with the exhaustion [Error] (or with [undefined] on a
    terminated client) and never grants a delay. *)
Theorem createRetryStrategy_zero_attempts c st opts error_s :
  getOptionsProp (options st) opt_retryAttempts = Some 0 ->
  (createRetryStrategy c st opts error_s).2 =
  if isExplicitlyTerminated st then RetryUndefined
  else RetryError "Retry time exhausted".
Proof.
  intros H. rewrite createRetryStrategy_result, H. reflexivity.
Qed.

Lemma createRetryStrategy_zero_attempts_witness :
  (createRetryStrategy Node.collaborators
     (new_ClientRedis Node.collaborators
        (Some {| opt_url := None; opt_retryAttempts := Some 0;
                 opt_retryDelay := Some 50 |}))
     {| error := JUndefined; attempt := 0 |} 0).2
  = RetryError "Retry time exhausted".
Proof.
  exact (createRetryStrategy_zero_attempts Node.collaborators
           (new_ClientRedis Node.collaborators
              (Some {| opt_url := None; opt_retryAttempts := Some 0;
                       opt_retryDelay := Some 50 |}))
           {| error := JUndefined; attempt := 0 |} 0 eq_refl).
Defined.

(** ** More on [dispatchEvent] *)

(** X6. [dispatchEvent] never touches the routing table, the handles, the
    connection or the termination flag, and it never subscribes or
    unsubscribes.  An exception of [normalizePattern] or of the serializer
    is not caught: it leaves the method as an exception, before any promise
    is created and before anything is sent. *)
Theorem dispatchEvent_footprint c st packet :
  let res := dispatchEvent c st packet in
  routingMap res.1.1 = routingMap st
  /\ pubClient res.1.1 = pubClient st
  /\ subClient res.1.1 = subClient st
  /\ connection res.1.1 = connection st
  /\ isExplicitlyTerminated res.1.1 = isExplicitlyTerminated st
  /\ (forall h channel ack,
        (EvSubscribe h channel ack ∉ res.1.2)
        /\ (EvUnsubscribe h channel ∉ res.1.2))
  /\ (forall e,
        normalizePattern c (pattern packet) = Throw e
        \/ (exists normalized,
              normalizePattern c (pattern packet) = Ok normalized
              /\ serialize c (ReadPacket_value packet) = Throw e) ->
        res = (st, [], Throw e)).
Proof.
  intros res. subst res. unfold dispatchEvent.
  split_and!; try (break_match; done).
  - intros h channel ack. break_match;
      (split; intros H; in_events H).
  - intros e [H | (normalized & Hn & H)]; [by rewrite H|].
    by rewrite Hn, H.
Qed.

(** ** The routing table over time *)

(** X7. The routing table has two writers only.  A step that changes what
    is registered under an identifier is either a [send] whose packet got
    that identifier, which then holds the callback of that [send], or a
    teardown for that identifier, which then holds nothing: the router,
    [connect], [close], [dispatchEvent] and the retry strategy never add or
    remove an entry.  And the instance unsubscribes from a channel in a
    teardown only. *)
Theorem routingMap_writers c st i (k : string) :
  (routingMap (step c st i).1 !! k <> routingMap st !! k ->
   (exists draw partialPacket callback,
      i = Publish draw partialPacket callback
      /\ registers c k i
      /\ routingMap (step c st i).1 !! k = Some callback)
   \/ (exists channel,
         i = TornDown channel k
         /\ routingMap (step c st i).1 !! k = None))
  /\ (forall h channel,
        EvUnsubscribe h channel ∈ (step c st i).2 ->
        exists id0, i = TornDown channel id0 /\ subClient st = Some h).
Proof.
  split.
  - destruct i as [| |draw partialPacket callback|pk|s o|p h|ch buf
                   |pat sp err|responseChannel id1|p err];
      try (unfold step, connect, close, dispatchEvent, createRetryStrategy,
             ready, publish_ack, subject_error; simpl; break_match; simpl;
           intros H; by destruct H).
    + intros H. left. exists draw, partialPacket, callback.
      split; [done|]. simpl in *.
      destruct (publish c st draw partialPacket callback) as [[st' evs] r]
        eqn:E.
      destruct (publish_routingMap c st draw partialPacket callback)
        as [Hr | (packet & Ha & Hr)]; rewrite E in Hr; simpl in *.
      { rewrite Hr in H. by destruct H. }
      rewrite Hr in *.
      destruct (decide (id packet = k)) as [<- | Hne].
      * split; [eauto|]. apply lookup_insert_eq.
      * rewrite lookup_insert_ne in H by done. by destruct H.
    + intros H. right. exists responseChannel. revert H.
      unfold step, teardown. destruct (subClient st); simpl;
        [|intros H; by destruct H].
      destruct (decide (id1 = k)) as [<- | Hne].
      * intros _. split; [done|]. apply lookup_delete_eq.
      * rewrite lookup_delete_ne by done. intros H; by destruct H.
  - intros h channel.
    destruct i; unfold step, connect, close, publish, publish_catch,
      dispatchEvent, createRetryStrategy, ready, teardown, publish_ack,
      createResponseCallback, subscribe_ack; simpl; break_match; simpl;
      intros H; in_events H.
    injection H as -> ->. eauto.
Qed.

Lemma step_keeps_registered c st i (id0 : string) callback :
  ~ registers c id0 i -> ~ tears_down id0 i ->
  routingMap st !! id0 = Some callback ->
  routingMap (step c st i).1 !! id0 = Some callback.
Proof.
  intros Hr Ht H.
  destruct (decide (routingMap (step c st i).1 !! id0 = routingMap st !! id0))
    as [-> | Hne]; [done|].
  destruct (proj1 (routingMap_writers c st i id0) Hne)
    as [(draw & pp & cb & -> & Hreg & _) | (channel & -> & _)].
  - by destruct Hr.
  - by destruct Ht.
Qed.

Lemma run_keeps_registered c (id0 : string) callback inputs : forall st,
  Forall (fun i => ~ registers c id0 i /\ ~ tears_down id0 i) inputs ->
  routingMap st !! id0 = Some callback ->
  routingMap (run c st inputs) !! id0 = Some callback.
Proof.
  induction inputs as [|i rest IH]; intros st Hf H; simpl; [done|].
  inversion Hf as [|? ? [Hr Ht] Hf']; subst. apply IH; [done|].
  by apply step_keeps_registered.
Qed.

Lemma publish_success c st draw partialPacket callback st1 evs
    responseChannel id0 :
  publish c st draw partialPacket callback =
    (st1, evs, Some (Teardown responseChannel id0)) ->
  exists packet normalized serializedPacket sub,
    assignPacketId c draw partialPacket = Ok packet
    /\ normalizePattern c (pattern partialPacket) = Ok normalized
    /\ serialize c (PacketWithId_value packet) = Ok serializedPacket
    /\ subClient st = Some sub
    /\ id0 = id packet
    /\ responseChannel = getResPatternName normalized
    /\ st1 = with_routingMap st (<[id0 := callback]> (routingMap st))
    /\ evs = [EvSubscribe sub responseChannel
                (SubscribeAck normalized serializedPacket)].
Proof.
  unfold publish, publish_catch.
  destruct (assignPacketId c draw partialPacket) as [packet|] eqn:Ea;
    [|discriminate].
  destruct (normalizePattern c (pattern partialPacket)) as [normalized|]
    eqn:En; [|discriminate].
  destruct (serialize c (PacketWithId_value packet)) as [sp|] eqn:Es';
    [|discriminate].
  simpl. destruct (subClient st) as [sub|] eqn:Es; [|discriminate].
  intros [= <- <- <- <-]. exists packet, normalized, sp, sub. done.
Qed.

(** X8. Correlation: once a [send] has registered its callback, and as long
    as no teardown for its identifier runs and no later [send] is given the
    same identifier, whatever else happens to the instance (other sends and
    teardowns, events, [close()], [connect()], other responses), a response
    that carries the identifier is handed to that callback, once, and to no
    other: with [isDisposed: true] when [isDisposed] or [err] is truthy,
    without it otherwise. *)
Theorem response_reaches_its_callback c st draw partialPacket callback st1
    evs responseChannel id0 inputs channel buffer packet d
    err response isDisposed :
  publish c st draw partialPacket callback =
    (st1, evs, Some (Teardown responseChannel id0)) ->
  Forall (fun i => ~ registers c id0 i /\ ~ tears_down id0 i) inputs ->
  JSON_parse c buffer = Ok packet ->
  deserialize c packet = Ok d ->
  destructure c d = Ok (err, response, isDisposed, JStr id0) ->
  createResponseCallback c (run c st1 inputs) channel buffer =
  ([EvCallback callback
      (JObj (if truthy isDisposed || truthy err
             then [("err", err); ("response", response);
                   ("isDisposed", JBool true)]
             else [("err", err); ("response", response)]))], Ok ()).
Proof.
  intros Hpub Hf Hp Hd Hx.
  destruct (publish_success _ _ _ _ _ _ _ _ _ Hpub)
    as (pk & normalized & sp & sub & _ & _ & _ & _ & _ & _ & -> & _).
  rewrite (createResponseCallback_unfold _ _ _ _ _ _ _ _ _ _ Hp Hd Hx).
  simpl. rewrite (run_keeps_registered c id0 callback inputs); [done|done|].
  simpl. apply lookup_insert_eq.
Qed.

(** The call [a] of the example, a second call [b] with another callback
    and the teardown of [b] in between, then the response to [a]. *)
Lemma response_reaches_its_callback_witness :
  createResponseCallback Node.collaborators
    (run Node.collaborators Examples.sent
       [Publish "b" Examples.sum 8; TornDown "sum_res" "b"])
    "sum_res" (Examples.dq "{'id':'a','response':3}")
  = ([EvCallback 7 (JObj [("err", JUndefined); ("response", JNum 3)])],
     Ok ()).
Proof.
  refine (response_reaches_its_callback Node.collaborators Examples.connected
            "a" Examples.sum 7%nat Examples.sent
            [EvSubscribe 1 "sum_res"
               (SubscribeAck "sum" (PacketWithId_value
                  {| id := "a"; packet := Examples.sum |}))]
            "sum_res" "a"
            [Publish "b" Examples.sum 8; TornDown "sum_res" "b"]
            "sum_res" (Examples.dq "{'id':'a','response':3}")
            (JObj [("id", JStr "a"); ("response", JNum 3)])
            (JObj [("id", JStr "a"); ("response", JNum 3)])
            JUndefined (JNum 3) JUndefined _ _ _ _ _).
  - vm_compute; reflexivity.
  - repeat constructor; simpl; try tauto.
    + intros (pk & [= <-] & Hid). discriminate.
    + discriminate.
  - vm_compute; reflexivity.
  - reflexivity.
  - reflexivity.
Defined.

(** X9. A [send] followed by its teardown leaves no trace in the instance:
    when the identifier was not registered before, the instance after the
    teardown is the instance before the [send], and the teardown
    unsubscribes, on the same handle, exactly the channel the [send]
    subscribed to. *)
Theorem send_then_teardown c st draw partialPacket callback st1 evs
    responseChannel id0 :
  publish c st draw partialPacket callback =
    (st1, evs, Some (Teardown responseChannel id0)) ->
  routingMap st !! id0 = None ->
  exists sub ack,
    evs = [EvSubscribe sub responseChannel ack]
    /\ teardown c st1 responseChannel id0 =
       (st, [EvUnsubscribe sub responseChannel], Ok ()).
Proof.
  intros Hpub Hfresh.
  destruct (publish_success _ _ _ _ _ _ _ _ _ Hpub)
    as (pk & normalized & sp & sub & _ & _ & _ & Hsub & _ & _ & -> & ->).
  exists sub, (SubscribeAck normalized sp). split; [done|].
  unfold teardown. simpl. rewrite Hsub. simpl.
  rewrite delete_insert_eq, delete_id by done.
  destruct st; reflexivity.
Qed.

Lemma send_then_teardown_witness :
  teardown Node.collaborators Examples.sent "sum_res" "a" =
  (Examples.connected, [EvUnsubscribe 1 "sum_res"], Ok ()).
Proof.
  destruct (send_then_teardown Node.collaborators Examples.connected "a"
              Examples.sum 7%nat Examples.sent
              [EvSubscribe 1 "sum_res"
                 (SubscribeAck "sum" (PacketWithId_value
                    {| id := "a"; packet := Examples.sum |}))]
              "sum_res" "a") as (sub & ack & Hev & Htd).
  - vm_compute; reflexivity.
  - reflexivity.
  - injection Hev as <- <-. exact Htd.
Defined.

(** X10. A [send] on a client that holds no subscriber handle (never
    connected, or closed) leaks its routing entry: the callback is stored
    before the read of [subscribe] raises, so the callback receives the
    [TypeError] as an error result, the caller gets no teardown function,
    nothing is sent, and the entry stays; a response that carries the
    identifier later on is still handed to the callback that was already
    told of the failure. *)
Theorem send_without_subscriber_leaks c st draw partialPacket callback
    packet normalized serializedPacket :
  assignPacketId c draw partialPacket = Ok packet ->
  normalizePattern c (pattern partialPacket) = Ok normalized ->
  serialize c (PacketWithId_value packet) = Ok serializedPacket ->
  subClient st = None ->
  let res := publish c st draw partialPacket callback in
  res.2 = None
  /\ res.1.2 =
     [EvCallback callback (JObj [("err", TypeError_read c "subscribe")])]
  /\ routingMap res.1.1 !! id packet = Some callback
  /\ forall inputs channel buffer,
       Forall (fun i => ~ registers c (id packet) i
                        /\ ~ tears_down (id packet) i) inputs ->
       carries c buffer (id packet) ->
       exists arg,
         createResponseCallback c (run c res.1.1 inputs) channel buffer
         = ([EvCallback callback arg], Ok ()).
Proof.
  intros Ha Hn Hs Hsub res. subst res.
  rewrite (publish_without_subscriber _ _ _ _ _ _ _ _ Ha Hn Hs Hsub).
  simpl. split_and!; try done.
  - apply lookup_insert_eq.
  - intros inputs channel buffer Hf
      (pk & d & err & response & isDisposed & Hp & Hd & Hx).
    rewrite (createResponseCallback_unfold _ _ _ _ _ _ _ _ _ _ Hp Hd Hx).
    simpl.
    rewrite (run_keeps_registered c (id packet) callback inputs);
      [eauto|done|]. simpl. apply lookup_insert_eq.
Qed.

(** A [send] on the example client before any [connect()], then the
    response. *)
Lemma send_without_subscriber_leaks_witness :
  (publish Node.collaborators Examples.fresh "a" Examples.sum 7).2 = None
  /\ exists arg,
       createResponseCallback Node.collaborators
         (publish Node.collaborators Examples.fresh "a" Examples.sum 7).1.1
         "sum_res" (Examples.dq "{'id':'a','response':3}")
       = ([EvCallback 7 arg], Ok ()).
Proof.
  destruct (send_without_subscriber_leaks Node.collaborators Examples.fresh
              "a" Examples.sum 7%nat
              {| id := "a"; packet := Examples.sum |} "sum"
              (PacketWithId_value {| id := "a"; packet := Examples.sum |})
              eq_refl eq_refl eq_refl eq_refl) as (H1 & _ & _ & H4).
  split; [exact H1|].
  apply (H4 []); [constructor|].
  exists (JObj [("id", JStr "a"); ("response", JNum 3)]),
    (JObj [("id", JStr "a"); ("response", JNum 3)]),
    JUndefined, (JNum 3), JUndefined.
  split_and!; vm_compute; reflexivity.
Defined.

(** X11. After [close()] the teardown function of a pending call raises on
    the read of [unsubscribe] and does not reach the [delete]: it sends
    nothing and changes nothing, the call stays registered, and as long as
    no teardown for it runs once a subscriber handle exists again, it stays
    so whatever happens. *)
Theorem teardown_after_close c st draw partialPacket callback st1 evs
    responseChannel id0 :
  publish c st draw partialPacket callback =
    (st1, evs, Some (Teardown responseChannel id0)) ->
  let closed := (close st1).1 in
  teardown c closed responseChannel id0 =
    (closed, [], Throw (TypeError_read c "unsubscribe"))
  /\ routingMap closed !! id0 = Some callback
  /\ forall inputs,
       Forall (fun i => ~ registers c id0 i /\ ~ tears_down id0 i) inputs ->
       routingMap
         (run c (step c closed (TornDown responseChannel id0)).1 inputs)
       !! id0 = Some callback.
Proof.
  intros Hpub closed.
  destruct (publish_success _ _ _ _ _ _ _ _ _ Hpub)
    as (pk & normalized & sp & sub & _ & _ & _ & _ & _ & _ & -> & _).
  assert (Hreg : routingMap closed !! id0 = Some callback)
    by apply lookup_insert_eq.
  split_and!; try done.
  intros inputs Hf. apply run_keeps_registered; done.
Qed.

Lemma teardown_after_close_witness :
  teardown Node.collaborators (close Examples.sent).1 "sum_res" "a" =
    ((close Examples.sent).1, [],
     Throw (TypeError_read Node.collaborators "unsubscribe"))
  /\ routingMap (close Examples.sent).1 !! "a" = Some 7%nat.
Proof.
  destruct (teardown_after_close Node.collaborators Examples.connected "a"
              Examples.sum 7%nat Examples.sent
              [EvSubscribe 1 "sum_res"
                 (SubscribeAck "sum" (PacketWithId_value
                    {| id := "a"; packet := Examples.sum |}))]
              "sum_res" "a") as (H1 & H2 & _).
  - vm_compute; reflexivity.
  - split; [exact H1 | exact H2].
Defined.

(** X12. Calls to the same pattern share one response channel, and a
    teardown does not look at the other calls: when two sends to one
    pattern are pending, the teardown of the first unsubscribes the very
    channel the second subscribed to, on the same handle, while the second
    is still registered and waiting for its response there. *)
Theorem teardown_unsubscribes_shared_channel c st
    draw_a packet_a callback_a st1 evs_a channel_a id_a
    draw_b packet_b callback_b st2 evs_b channel_b id_b :
  publish c st draw_a packet_a callback_a =
    (st1, evs_a, Some (Teardown channel_a id_a)) ->
  publish c st1 draw_b packet_b callback_b =
    (st2, evs_b, Some (Teardown channel_b id_b)) ->
  pattern packet_a = pattern packet_b ->
  id_a <> id_b ->
  exists sub ack,
    channel_a = channel_b
    /\ evs_b = [EvSubscribe sub channel_b ack]
    /\ (teardown c st2 channel_a id_a).1.2 = [EvUnsubscribe sub channel_b]
    /\ routingMap (teardown c st2 channel_a id_a).1.1 !! id_b
       = Some callback_b.
Proof.
  intros Ha Hb Hpat Hne.
  destruct (publish_success _ _ _ _ _ _ _ _ _ Ha)
    as (pa & na & spa & sub & _ & Hna & _ & Hsub & _ & -> & -> & _).
  destruct (publish_success _ _ _ _ _ _ _ _ _ Hb)
    as (pb & nb & spb & sub' & _ & Hnb & _ & Hsub' & _ & -> & -> & ->).
  simpl in Hsub'. rewrite Hsub in Hsub'. injection Hsub' as <-.
  rewrite Hpat, Hnb in Hna. injection Hna as <-.
  exists sub, (SubscribeAck nb spb). split; [done|]. split; [done|].
  unfold teardown. simpl. rewrite Hsub. simpl. split; [done|].
  rewrite lookup_delete_ne by done. apply lookup_insert_eq.
Qed.

Lemma teardown_unsubscribes_shared_channel_witness :
  (teardown Node.collaborators
     (publish Node.collaborators Examples.sent "b" Examples.sum 8).1.1
     "sum_res" "a").1.2 = [EvUnsubscribe 1 "sum_res"]
  /\ routingMap
       (teardown Node.collaborators
          (publish Node.collaborators Examples.sent "b" Examples.sum 8).1.1
          "sum_res" "a").1.1 !! "b" = Some 8%nat.
Proof.
  destruct (teardown_unsubscribes_shared_channel Node.collaborators
              Examples.connected
              "a" Examples.sum 7%nat Examples.sent
              [EvSubscribe 1 "sum_res"
                 (SubscribeAck "sum" (PacketWithId_value
                    {| id := "a"; packet := Examples.sum |}))]
              "sum_res" "a"
              "b" Examples.sum 8%nat
              (publish Node.collaborators Examples.sent "b" Examples.sum 8).1.1
              [EvSubscribe 1 "sum_res"
                 (SubscribeAck "sum" (PacketWithId_value
                    {| id := "b"; packet := Examples.sum |}))]
              "sum_res" "b")
    as (sub & ack & _ & Hev & H3 & H4).
  - vm_compute; reflexivity.
  - vm_compute; reflexivity.
  - reflexivity.
  - discriminate.
  - injection Hev as <- _. split; [exact H3 | exact H4].
Defined.

(** ** The handles over time *)

Lemma step_without_handles c st i :
  pubClient st = None -> subClient st = None -> i <> Connect ->
  pubClient (step c st i).1 = None
  /\ subClient (step c st i).1 = None
  /\ forall ev, ev ∈ (step c st i).2 -> network_action ev = false.
Proof.
  intros Hp Hs Hi.
  destruct i; try done;
    unfold step, close, publish, publish_catch, dispatchEvent,
      createRetryStrategy, ready, teardown, publish_ack, subject_error,
      createResponseCallback, subscribe_ack;
    rewrite ?Hp, ?Hs; simpl; break_match; simpl;
    (split_and!; [congruence || done | congruence || done |]);
    intros ev H; in_events H; try congruence; by subst.
Qed.

(** X13. A client without handles sends nothing: from a state in which both
    handles are absent (before the first [connect()], after [close()]) and
    until [connect()] is called, no method and no callback of the instance
    subscribes, unsubscribes or publishes, whatever is called and in
    whatever order. *)
Theorem no_network_action_without_handles c inputs : forall st,
  pubClient st = None -> subClient st = None ->
  Connect ∉ inputs ->
  forall ev, ev ∈ trace c st inputs -> network_action ev = false.
Proof.
  induction inputs as [|i rest IH]; intros st Hp Hs Hn ev Hin; simpl in *.
  { by apply elem_of_nil in Hin. }
  assert (Hi : i <> Connect) by (intros ->; apply Hn; left).
  destruct (step_without_handles c st i Hp Hs Hi) as (Hp' & Hs' & Hev).
  apply elem_of_app in Hin as [Hin | Hin]; [by apply Hev|].
  apply (IH (step c st i).1); try done.
  intros H. apply Hn. by right.
Qed.

(** The example client after [close()]: the teardown of the pending call, a
    new [send], an event and a late acknowledgment send nothing. *)
Lemma no_network_action_without_handles_witness :
  Forall (fun ev => network_action ev = false)
    (trace Node.collaborators (close Examples.sent).1
       [TornDown "sum_res" "a"; Publish "b" Examples.sum 8;
        DispatchEvent Examples.sum;
        SubscribeAcked "sum"
          (PacketWithId_value {| id := "a"; packet := Examples.sum |})
          None]).
Proof.
  apply Forall_forall.
  apply (no_network_action_without_handles Node.collaborators
           [TornDown "sum_res" "a"; Publish "b" Examples.sum 8;
            DispatchEvent Examples.sum;
            SubscribeAcked "sum"
              (PacketWithId_value {| id := "a"; packet := Examples.sum |})
              None]
           (close Examples.sent).1 eq_refl eq_refl).
  intros H. in_events H.
Defined.

Lemma step_frame c st i :
  i <> Connect ->
  clients (step c st i).1 = clients st
  /\ connection (step c st i).1 = connection st
  /\ length (handshakes (step c st i).1) = length (handshakes st)
  /\ (i <> Close ->
      pubClient (step c st i).1 = pubClient st
      /\ subClient (step c st i).1 = subClient st).
Proof.
  intros Hi.
  destruct i; try done;
    unfold step, close, publish, publish_catch, dispatchEvent,
      createRetryStrategy, ready, teardown, publish_ack, subject_error;
    simpl; break_match; simpl;
    rewrite ?length_alter, ?length_insert; done.
Qed.

Lemma step_handshake_handles c st i p hs :
  i <> Connect ->
  handshakes (step c st i).1 !! p = Some hs ->
  exists hs0,
    handshakes st !! p = Some hs0
    /\ hs_pub hs = hs_pub hs0 /\ hs_sub hs = hs_sub hs0.
Proof.
  intros Hi Hl. pose proof (step_handshakes c st i) as Hsame.
  destruct i; try done; try (rewrite Hsame in Hl; eauto).
  - assert (Hcase : handshakes (step c st (Retry error_s opts)).1 =
                    handshakes st
                    \/ handshakes (step c st (Retry error_s opts)).1 =
                       handshakes (subject_error st error_s (error opts))).
    { unfold step, createRetryStrategy.
      destruct (is_refused c (error opts)); simpl; break_match; auto. }
    destruct Hcase as [Hc | Hc]; rewrite Hc in Hl; [eauto|].
    apply subject_error_lookup in Hl as (hs0 & H0 & [-> | H]); [eauto|].
    exists hs0. by destruct H as (_ & _ & ? & ? & _).
  - apply ready_lookup in Hl as (hs0 & H0 & [-> | H]); [eauto|].
    exists hs0. by destruct H as (_ & _ & ? & ? & _).
Qed.

Lemma Connect_or_not (i : input) : i = Connect \/ i <> Connect.
Proof. destruct i; auto; right; discriminate. Qed.

Lemma Close_or_not (i : input) : i = Close \/ i <> Close.
Proof. destruct i; auto; right; discriminate. Qed.

Lemma reachable_numbering c o log st :
  reachable c o log st ->
  clients st = (2 * length (handshakes st))%nat
  /\ (forall p hs, handshakes st !! p = Some hs ->
        hs_pub hs = (2 * p)%nat /\ hs_sub hs = (2 * p + 1)%nat)
  /\ ((pubClient st = None /\ subClient st = None)
      \/ exists p,
           connection st = Some p /\ (p < length (handshakes st))%nat
           /\ pubClient st = Some (2 * p)%nat
           /\ subClient st = Some (2 * p + 1)%nat).
Proof.
  induction 1 as [|log st i Hr (IH1 & IH2 & IH3) He].
  { split_and!; [done| |by left]. intros p hs H. discriminate. }
  destruct (Connect_or_not i) as [-> | Hi].
  - unfold step, connect.
    destruct IH3 as [[Hp Hs] | (p & Hc & Hlt & Hp & Hs)]; rewrite Hp, ?Hs;
      simpl.
    + split_and!.
      * rewrite length_app. simpl. lia.
      * intros p hs Hl. apply lookup_app_Some in Hl as [Hl | [Hge Hl]];
          [by apply IH2|].
        apply list_lookup_singleton_Some in Hl as [Hz <-]. simpl. lia.
      * right. exists (length (handshakes st)). rewrite length_app. simpl.
        split_and!; try done; try lia; f_equal; lia.
    + split_and!; try done. right. eauto 10.
  - destruct (step_frame c st i Hi) as (F1 & F2 & F3 & F4).
    split_and!.
    + by rewrite F1, F3.
    + intros p hs Hl.
      destruct (step_handshake_handles c st i p hs Hi Hl)
        as (hs0 & H0 & -> & ->). by apply IH2.
    + destruct (Close_or_not i) as [-> | Hc]; [by left|].
      destruct (F4 Hc) as [-> ->]. rewrite F2, F3. exact IH3.
Qed.

(** X14. In every history the instance holds both handles or none; when it
    holds them, they are two different clients, the pair created by the
    [connect()] call whose promise is the memoized [connection]; and no
    client is shared between two [connect()] calls that created handles. *)
Theorem handles_invariant c o log st :
  reachable c o log st ->
  (pubClient st = None <-> subClient st = None)
  /\ (forall pub sub,
        pubClient st = Some pub -> subClient st = Some sub ->
        pub <> sub
        /\ exists p hs,
             connection st = Some p /\ handshakes st !! p = Some hs
             /\ hs_pub hs = pub /\ hs_sub hs = sub)
  /\ (forall p q hp hq,
        handshakes st !! p = Some hp -> handshakes st !! q = Some hq ->
        p <> q ->
        hs_pub hp <> hs_pub hq /\ hs_pub hp <> hs_sub hq
        /\ hs_sub hp <> hs_pub hq /\ hs_sub hp <> hs_sub hq).
Proof.
  intros Hr. destruct (reachable_numbering c o log st Hr) as (H1 & H2 & H3).
  split_and!.
  - destruct H3 as [[-> ->] | (p & _ & _ & -> & ->)]; [done|].
    split; discriminate.
  - intros pub sub Hp Hs.
    destruct H3 as [[Hn _] | (p & Hc & Hlt & Hp' & Hs')]; [congruence|].
    rewrite Hp in Hp'. rewrite Hs in Hs'.
    injection Hp' as ->. injection Hs' as ->.
    split; [lia|].
    destruct (lookup_lt_is_Some_2 _ _ Hlt) as [hs Hl].
    exists p, hs. destruct (H2 p hs Hl) as [-> ->]. done.
  - intros p q hp hq Hp Hq Hne.
    destruct (H2 p hp Hp) as [-> ->], (H2 q hq Hq) as [-> ->]. lia.
Qed.

(** The connected example client holds the handles 0 and 1 of its first
    [connect()]. *)
Lemma handles_invariant_witness :
  exists p hs,
    connection Examples.connected = Some p
    /\ handshakes Examples.connected !! p = Some hs
    /\ hs_pub hs = 0%nat /\ hs_sub hs = 1%nat.
Proof.
  pose proof (reachable_new Node.collaborators Examples.opts_3_50) as R0.
  pose proof (reachable_step _ _ _ _ Connect R0 I) as R1.
  pose proof (reachable_step _ _ _ _ (Ready 0 0) R1 I) as R2.
  pose proof (reachable_step _ _ _ _ (Ready 0 1) R2 I) as R3.
  destruct (handles_invariant _ _ _ _ R3) as (_ & H & _).
  exact (proj2 (H 0%nat 1%nat eq_refl eq_refl)).
Defined.

(** ** The connection promise over time *)

Lemma step_keeps_settled c st i p hs :
  handshakes st !! p = Some hs -> hs_state hs <> Pending ->
  handshakes (step c st i).1 !! p = Some hs.
Proof.
  intros Hl Hs. pose proof (step_handshakes c st i) as Hsame.
  destruct i; try (by rewrite Hsame).
  - unfold step, connect. break_match; simpl; try done.
    all: by apply lookup_app_l_Some.
  - unfold step, createRetryStrategy, subject_error.
    destruct (is_refused c (error opts)); simpl; break_match; simpl;
      try done.
    all: destruct (decide (p = error_s)) as [-> | Hne];
      [ rewrite list_lookup_alter_eq, Hl; simpl; unfold reject_pending;
        by destruct (hs_state hs)
      | by rewrite list_lookup_alter_ne ].
  - unfold step, ready.
    destruct (handshakes st !! p0) as [hs0|] eqn:E0; [|done].
    destruct (hs_state hs0) eqn:Es; try done.
    assert (Hne : p0 <> p) by (intros ->; congruence).
    break_match; simpl; by rewrite list_lookup_insert_ne.
Qed.

Lemma run_keeps_settled c p hs inputs : forall st,
  handshakes st !! p = Some hs -> hs_state hs <> Pending ->
  handshakes (run c st inputs) !! p = Some hs.
Proof.
  induction inputs as [|i rest IH]; intros st Hl Hs; simpl; [done|].
  apply IH; [|done]. by apply step_keeps_settled.
Qed.

(** X15. A failed connection attempt is memoized like a successful one:
    [connect()] looks at the handles only, so once the promise of the
    current attempt is rejected, and until [close()] is called, every
    [connect()] answers with that same rejected promise, creates no handle
    and starts no new attempt, whatever else happens to the instance. *)
Theorem failed_connect_is_memoized c st p hs e inputs :
  connection st = Some p ->
  is_Some (pubClient st) -> is_Some (subClient st) ->
  handshakes st !! p = Some hs -> hs_state hs = Rejected e ->
  Close ∉ inputs ->
  let later := run c st inputs in
  connect c later = (later, [], Some p)
  /\ handshakes later !! p = Some hs.
Proof.
  intros Hc Hp Hs Hl He Hn later. subst later.
  destruct (run_keeps_connection c inputs st Hn Hp Hs) as (E1 & E2 & E3).
  split.
  - rewrite connect_established; rewrite ?E1, ?E2; try done.
    by rewrite E3, Hc.
  - apply run_keeps_settled; [done|]. by rewrite He.
Qed.

(** The example client calls [connect()] and the first attempt is refused;
    a second [connect()], after both handles have got through all the
    same, still answers with the rejected promise. *)
Lemma failed_connect_is_memoized_witness :
  exists later hs,
    connect Node.collaborators later = (later, [], Some 0%nat)
    /\ handshakes later !! 0%nat = Some hs
    /\ hs_state hs =
       Rejected (JError {| e_name := "Error"; e_message := "connect";
                           e_code := Some "ECONNREFUSED" |}).
Proof.
  pose (refused := JError {| e_name := "Error"; e_message := "connect";
                             e_code := Some "ECONNREFUSED" |}).
  pose (st := run Node.collaborators Examples.fresh
                [Connect; Retry 0 {| error := refused; attempt := 1 |}]).
  destruct (failed_connect_is_memoized Node.collaborators st 0%nat
              {| hs_pub := 0; hs_sub := 1; hs_pub_ready := false;
                 hs_sub_ready := false; hs_state := Rejected refused |}
              refused [Ready 0 0; Ready 0 1; Connect]) as [H1 H2].
  - reflexivity.
  - vm_compute; eauto.
  - vm_compute; eauto.
  - vm_compute; reflexivity.
  - reflexivity.
  - intros H. in_events H.
  - eexists _, _. split; [exact H1|]. split; [exact H2|]. reflexivity.
Defined.

(** ** The message listener *)

Lemma reachable_prefix c o log st :
  reachable c o log st ->
  forall n i evs,
    log !! n = Some (i, evs) ->
    exists st', reachable c o (take n log) st' /\ evs = (step c st' i).2.
Proof.
  induction 1 as [|log st i Hr IH He]; intros n j evs Hl; [discriminate|].
  apply lookup_app_Some in Hl as [Hl | [Hge Hl]].
  - destruct (IH _ _ _ Hl) as (st' & Hr' & ->). exists st'.
    split; [|done]. rewrite take_app_le; [done|].
    apply lookup_lt_Some in Hl. lia.
  - apply list_lookup_singleton_Some in Hl as [Hz [= <- <-]].
    exists st. split; [|done].
    replace n with (length log) by lia. by rewrite take_app_length.
Qed.

Lemma step_listener c st i h ev :
  EvOn h ev ResponseCallback ∈ (step c st i).2 ->
  exists p h',
    i = Ready p h' /\ ev = MESSAGE_EVENT c
    /\ (step c st i).2 = [EvOn h ev ResponseCallback].
Proof.
  destruct i; unfold step, connect, close, publish, publish_catch,
    dispatchEvent, createRetryStrategy, ready, teardown, publish_ack,
    createResponseCallback, subscribe_ack; simpl; break_match; simpl;
    intros H; in_events H.
  injection H as -> ->. eauto.
Qed.

Lemma ready_settles c st p h :
  (ready c st p h).2 <> [] ->
  (exists hs0, handshakes st !! p = Some hs0 /\ hs_state hs0 = Pending)
  /\ exists hs, handshakes (ready c st p h).1 !! p = Some hs
                /\ hs_state hs <> Pending.
Proof.
  unfold ready.
  destruct (handshakes st !! p) as [hs0|] eqn:E0; [|done].
  destruct (hs_state hs0) eqn:Es; try done.
  assert (Hlt : (p < length (handshakes st))%nat)
    by (by eapply lookup_lt_Some).
  break_match; simpl; try done; intros _; (split; [eauto|]);
    rewrite list_lookup_insert_eq by done; eexists; (split; [done|]);
    simpl; discriminate.
Qed.

Lemma reachable_listeners c o log st :
  reachable c o log st ->
  forall m p h evs,
    log !! m = Some (Ready p h, evs) -> evs <> [] ->
    exists hs, handshakes st !! p = Some hs /\ hs_state hs <> Pending.
Proof.
  induction 1 as [|log st i Hr IH He]; intros m p h evs Hl Hev;
    [discriminate|].
  apply lookup_app_Some in Hl as [Hl | [_ Hl]].
  - destruct (IH _ _ _ _ Hl Hev) as (hs & H1 & H2).
    exists hs. split; [|done]. by apply step_keeps_settled.
  - apply list_lookup_singleton_Some in Hl as [_ [= -> <-]].
    simpl in *. by destruct (ready_settles c st p h Hev) as [_ ?].
Qed.

(** X16. The message listener is installed by a connection attempt at the
    moment it completes and by nothing else, and an attempt installs it at
    most once: in every history, an installation of the response callback
    is the only event of a step in which a handle signalled
    [CONNECT_EVENT], and of two such steps for the same attempt the later
    one installs nothing if the earlier one installed it. *)
Theorem message_listener_installed_once c o log st :
  reachable c o log st ->
  (forall n i evs h ev,
     log !! n = Some (i, evs) ->
     EvOn h ev ResponseCallback ∈ evs ->
     exists p h',
       i = Ready p h' /\ ev = MESSAGE_EVENT c
       /\ evs = [EvOn h ev ResponseCallback])
  /\ (forall m n p h1 h2 evs1 evs2,
        (m < n)%nat ->
        log !! m = Some (Ready p h1, evs1) ->
        log !! n = Some (Ready p h2, evs2) ->
        evs1 <> [] -> evs2 = []).
Proof.
  intros Hr. split.
  - intros n i evs h ev Hl Hin.
    destruct (reachable_prefix c o log st Hr _ _ _ Hl) as (st' & _ & ->).
    by apply step_listener.
  - intros m n p h1 h2 evs1 evs2 Hlt Hm Hn Hev.
    destruct (reachable_prefix c o log st Hr _ _ _ Hn) as (st' & Hr' & ->).
    assert (Hm' : take n log !! m = Some (Ready p h1, evs1))
      by (by rewrite lookup_take_lt).
    destruct (reachable_listeners c o _ st' Hr' _ _ _ _ Hm' Hev)
      as (hs & Hl & Hs).
    simpl. unfold ready. rewrite Hl. by destruct (hs_state hs).
Qed.

(** On the example client the second handle completes the attempt and
    installs the listener on the subscriber handle; if both handles
    reconnect afterwards, nothing is installed again. *)
Lemma message_listener_installed_once_witness :
  (step Node.collaborators
     (run Node.collaborators Examples.fresh [Connect; Ready 0 0])
     (Ready 0 1)).2 = [EvOn 1 "message" ResponseCallback]
  /\ (step Node.collaborators
        (run Node.collaborators Examples.fresh
           [Connect; Ready 0 0; Ready 0 1; Ready 0 0])
        (Ready 0 1)).2 = [].
Proof.
  pose proof (reachable_new Node.collaborators Examples.opts_3_50) as R0.
  pose proof (reachable_step _ _ _ _ Connect R0 I) as R1.
  pose proof (reachable_step _ _ _ _ (Ready 0 0) R1 I) as R2.
  pose proof (reachable_step _ _ _ _ (Ready 0 1) R2 I) as R3.
  pose proof (reachable_step _ _ _ _ (Ready 0 0) R3 I) as R4.
  pose proof (reachable_step _ _ _ _ (Ready 0 1) R4 I) as R5.
  destruct (message_listener_installed_once _ _ _ _ R5) as [_ H].
  split; [reflexivity|].
  apply (H 2%nat 4%nat 0%nat 1%nat 1%nat
           [EvOn 1 "message" ResponseCallback]); try done.
  lia.
Defined.

(** ** The url *)

Lemma step_url c st i :
  url (step c st i).1 = url st /\ options (step c st i).1 = options st.
Proof.
  destruct i; unfold step, connect, close, publish, publish_catch,
    dispatchEvent, createRetryStrategy, ready, teardown, publish_ack,
    subject_error; simpl; break_match; done.
Qed.

Lemma reachable_url c o log st :
  reachable c o log st ->
  url st = url (new_ClientRedis c o) /\ options st = o.
Proof.
  induction 1 as [|log st i Hr [IH1 IH2] He]; [done|].
  destruct (step_url c st i) as [-> ->]. done.
Qed.

Lemma step_createClient c st i h u k :
  EvCreateClient h u k ∈ (step c st i).2 ->
  i = Connect /\ u = url st /\ exists s, k = RetryStrategy s.
Proof.
  destruct i; unfold step, connect, close, publish, publish_catch,
    dispatchEvent, createRetryStrategy, ready, teardown, publish_ack,
    createResponseCallback, subscribe_ack; simpl; break_match; simpl;
    intros H; in_events H; injection H as -> -> ->; eauto.
Qed.

(** X17. The url is fixed by the constructor: it is the configured [url],
    or the default url when none is configured or the configured one is
    the empty string.  In every history the instance creates Redis clients
    in [connect()] only, each of them for that url and with the retry
    strategy of the instance, and its options never change. *)
Theorem clients_are_created_for_the_url c o log st :
  reachable c o log st ->
  options st = o
  /\ (forall u, getOptionsProp o opt_url = Some u -> u <> "" -> url st = u)
  /\ (getOptionsProp o opt_url = None \/ getOptionsProp o opt_url = Some ""
      -> url st = REDIS_DEFAULT_URL c)
  /\ (forall n i evs h u k,
        log !! n = Some (i, evs) ->
        EvCreateClient h u k ∈ evs ->
        i = Connect /\ u = url st /\ exists s, k = RetryStrategy s).
Proof.
  intros Hr. destruct (reachable_url c o log st Hr) as [Hu Ho].
  split_and!; try done.
  - intros u Hopt Hne. rewrite Hu. simpl. rewrite Hopt.
    destruct (String.eqb u "") eqn:E; [|done].
    apply String.eqb_eq in E. done.
  - intros [H | H]; rewrite Hu; simpl; by rewrite H.
  - intros n i evs h u k Hl Hin.
    destruct (reachable_prefix c o log st Hr _ _ _ Hl) as (st' & Hr' & ->).
    destruct (step_createClient _ _ _ _ _ _ Hin) as (-> & -> & Hk).
    split_and!; try done.
    destruct (reachable_url c o _ st' Hr') as [-> _]. by rewrite Hu.
Qed.

(** The example client configures no url: it connects to the default. *)
Lemma clients_are_created_for_the_url_witness :
  url Examples.connected = "redis://localhost:6379".
Proof.
  pose proof (reachable_new Node.collaborators Examples.opts_3_50) as R0.
  pose proof (reachable_step _ _ _ _ Connect R0 I) as R1.
  pose proof (reachable_step _ _ _ _ (Ready 0 0) R1 I) as R2.
  pose proof (reachable_step _ _ _ _ (Ready 0 1) R2 I) as R3.
  destruct (clients_are_created_for_the_url _ _ _ _ R3) as (_ & _ & H & _).
  apply H. by left.
Defined.

(** ** The promises of [dispatchEvent] *)

(** X18. Every [dispatchEvent] that returns makes a promise of its own and
    leaves the promises of earlier events as they are; the acknowledgment
    of one event settles the promise of that event only, and an
    acknowledgment that arrives for a promise already settled changes
    nothing. *)
Theorem event_promises_do_not_interfere c st packet st' evs p :
  dispatchEvent c st packet = (st', evs, Ok p) ->
  emitted st !! p = None
  /\ is_Some (emitted st' !! p)
  /\ (forall q, q <> p -> emitted st' !! q = emitted st !! q)
  /\ (forall later q err,
        q <> p ->
        emitted (publish_ack later p err) !! q = emitted later !! q)
  /\ (forall later s err,
        emitted later !! p = Some s -> s <> Pending ->
        emitted (publish_ack later p err) !! p = Some s).
Proof.
  intros Hd.
  assert (Hshape : p = length (emitted st)
                   /\ exists s, emitted st' = emitted st ++ [s]).
  { revert Hd. unfold dispatchEvent. break_match; try discriminate;
      intros [= <- <- <-]; simpl; eauto. }
  destruct Hshape as [-> [s Hs]]. rewrite Hs. split_and!.
  - by apply lookup_ge_None_2.
  - rewrite lookup_app_r by lia. rewrite Nat.sub_diag. by eexists.
  - intros q Hq. destruct (decide (q < length (emitted st))%nat).
    + by rewrite lookup_app_l.
    + rewrite !lookup_ge_None_2; [done|lia|].
      rewrite length_app. simpl. lia.
  - intros later q err Hq. unfold publish_ack. simpl.
    by rewrite list_lookup_alter_ne.
  - intros later s0 err Hl Hn.
    rewrite (publish_ack_lookup _ _ _ s0 Hl). by destruct s0.
Qed.

(** Two events on the connected example client: the acknowledgment of the
    second leaves the promise of the first pending. *)
Lemma event_promises_do_not_interfere_witness :
  emitted
    (publish_ack
       (run Node.collaborators Examples.connected
          [DispatchEvent Examples.sum; DispatchEvent Examples.sum])
       1 None) !! 0%nat = Some Pending.
Proof.
  destruct (event_promises_do_not_interfere Node.collaborators
              (run Node.collaborators Examples.connected
                 [DispatchEvent Examples.sum])
              Examples.sum
              (run Node.collaborators Examples.connected
                 [DispatchEvent Examples.sum; DispatchEvent Examples.sum])
              [EvPublish 0 "sum"
                 (JStr (Examples.dq "{'pattern':'sum','data':[1,2]}"))
                 (Some (PublishAck 1))] 1%nat)
    as (_ & _ & _ & H & _).
  - vm_compute; reflexivity.
  - rewrite H by done. reflexivity.
Defined.
